(** * Reconciliation scripts of today-election69-runner

    A shallow embedding of the synchronisation scripts (one JavaScript file
    per entity) and of [pb.js], the shared authenticator.  Every script
    fetches items from the election API, resolves relations through lazily
    loaded name -> id caches, looks an existing record up by natural key,
    and creates, updates or skips.

    The scripts are [async] but strictly sequential (every call is awaited),
    so a script is a function from the state of the process and of the
    record store to a result and a new state.  Exceptions keep the state
    they were raised in, as in JavaScript. *)

From Stdlib Require Import ZArith List String Ascii Bool Lia.
From Stdlib Require Import DecimalNat DecimalString.
Import ListNotations.

Set Warnings "-register-all".
Local Open Scope Z_scope.
Local Open Scope string_scope.
Local Open Scope list_scope.

(* ===================================================================== *)
(** * JavaScript values, as the scripts use them *)
(* ===================================================================== *)

Module JS.

(** JSON values plus [undefined].  The scripts never do arithmetic on the
    numbers they carry, they only compare them, so a number is an integer
    here. *)
Inductive value : Type :=
| VUndef
| VNull
| VBool (b : bool)
| VNum (n : Z)
| VStr (s : string)
| VObj (fields : list (string * value))
| VArr (elems : list value).

(** A JSON object: source items, payloads, stored records. *)
Definition obj := list (string * value).

(** [o.k]: the first binding of [k], [undefined] when there is none. *)
Fixpoint get (o : obj) (k : string) : value :=
  match o with
  | [] => VUndef
  | (k', v) :: o' => if String.eqb k k' then v else get o' k
  end.

(** [v?.k]: [undefined] on [undefined] and [null], the property on an
    object; the primitives and arrays of a JSON document have none of the
    properties the scripts read. *)
Definition opt_get (v : value) (k : string) : value :=
  match v with
  | VObj o => get o k
  | _ => VUndef
  end.

(** [a === b].  Both operands always come from different JSON documents
    (one from the store, one from the source), so two objects or two arrays
    are never the same reference. *)
Definition strict_eq (a b : value) : bool :=
  match a, b with
  | VUndef, VUndef => true
  | VNull, VNull => true
  | VBool x, VBool y => Bool.eqb x y
  | VNum x, VNum y => Z.eqb x y
  | VStr x, VStr y => String.eqb x y
  | _, _ => false
  end.

(** [a !== b] *)
Definition strict_neq (a b : value) : bool := negb (strict_eq a b).


(** ToBoolean, for [if (x)], [!x], [a || b], [c ? a : b]. *)
Definition truthy (v : value) : bool :=
  match v with
  | VUndef | VNull => false
  | VBool b => b
  | VNum n => negb (Z.eqb n 0)
  | VStr s => negb (String.eqb s EmptyString)
  | VObj _ | VArr _ => true
  end.

Definition string_of_Z (n : Z) : string :=
  NilZero.string_of_int (Z.to_int n).

(** ToString, for the template literals [`${v}`]. *)
Fixpoint to_string (v : value) : string :=
  match v with
  | VUndef => "undefined"
  | VNull => "null"
  | VBool true => "true"
  | VBool false => "false"
  | VNum n => string_of_Z n
  | VStr s => s
  | VObj _ => "[object Object]"
  | VArr l =>
      (fix join (l : list value) : string :=
         match l with
         | [] => EmptyString
         | x :: r =>
             let sx := match x with
                       | VUndef | VNull => EmptyString
                       | _ => to_string x
                       end in
             match r with
             | [] => sx
             | _ => sx ++ "," ++ join r
             end
         end) l
  end%string.

(** A JavaScript [Map]: keys in insertion order, compared by SameValueZero,
    which on JSON values is [===]. *)
Definition jsmap := list (value * value).

Fixpoint map_get (m : jsmap) (k : value) : value :=
  match m with
  | [] => VUndef
  | (k', v) :: m' => if strict_eq k' k then v else map_get m' k
  end.

Fixpoint map_set (m : jsmap) (k v : value) : jsmap :=
  match m with
  | [] => [(k, v)]
  | (k', v') :: m' =>
      if strict_eq k' k then (k', v) :: m' else (k', v') :: map_set m' k v
  end.

(** An error object, as far as the scripts look at it. *)
Record jserror : Type := mkError { err_status : value; err_message : string }.

(** [new Error(msg)], [TypeError]: no [status] property. *)
Definition Error (msg : string) : jserror := mkError VUndef msg.

End JS.
Import JS.

(* ===================================================================== *)
(** * The record store and the process *)
(* ===================================================================== *)

(** The answer of an awaited call: a value, or a rejection. *)
Inductive reply (A : Type) : Type :=
| Ok (a : A)
| Fail (e : jserror).
Arguments Ok {A} a.
Arguments Fail {A} e.

(** The filter template [`field="${v}"`] (or [`field=${v}`]), kept as its
    parts; [flt_text] is the interpolated text. *)
Record filter : Type := mkFilter
  { flt_field : string; flt_quoted : bool; flt_text : string }.

Definition dquote : string := String (ascii_of_nat 34) EmptyString.

Definition filter_string (f : filter) : string :=
  (if flt_quoted f
   then flt_field f ++ "=" ++ dquote ++ flt_text f ++ dquote
   else flt_field f ++ "=" ++ flt_text f)%string.

(** The calls of the PocketBase client the scripts make.  The store is
    outside the repository: a script is verified against every store that
    implements this interface, and run on the two instances below. *)
Class PocketBase (S : Type) : Type :=
  { pb_isValid : S -> bool;
    pb_authUser : string -> string -> S -> reply unit * S;
    pb_authAdmin : string -> string -> S -> reply unit * S;
    pb_getFirstListItem : string -> filter -> S -> reply obj * S;
    pb_getFullList : string -> S -> reply (list obj) * S;
    pb_getList : string -> Z -> Z -> S -> reply (list obj) * S;
    pb_create : string -> obj -> S -> reply obj * S;
    pb_update : string -> value -> obj -> S -> reply obj * S }.

(** What a process did to the outside, in order. *)
Inductive call : Type :=
| CAuthUser (email password : string)
| CAuthAdmin (email password : string)
| CGetFirstListItem (collection : string) (f : filter)
| CGetFullList (collection : string)
| CGetList (collection : string) (page perPage : Z)
| CCreate (collection : string) (payload : obj)
| CUpdate (collection : string) (id : value) (payload : obj)
| CHttpGet (page : option Z).


(** The state of one process: the client with the store behind it, the
    module-level caches ([null] until first use), and the calls made. *)
Record world (S : Type) : Type := mkWorld
  { w_pb : S;
    w_partyCache : option jsmap;
    w_provinceCache : option jsmap;
    w_areaCache : option jsmap;
    w_calls : list call }.
Arguments mkWorld {S}.
Arguments w_pb {S}.
Arguments w_partyCache {S}.
Arguments w_provinceCache {S}.
Arguments w_areaCache {S}.
Arguments w_calls {S}.

(** A fresh process on a store. *)
Definition boot {S : Type} (s : S) : world S := mkWorld s None None None [].

(** How a piece of code ends: [return]/fall through, or [throw]. *)
Inductive outcome (A : Type) : Type :=
| Return (a : A)
| Throw (e : jserror).
Arguments Return {A} a.
Arguments Throw {A} e.

Definition M (S A : Type) : Type := world S -> outcome A * world S.

Definition ret {S A} (a : A) : M S A := fun w => (Return a, w).

Definition throw {S A} (e : jserror) : M S A := fun w => (Throw e, w).

Definition bind {S A B} (m : M S A) (k : A -> M S B) : M S B :=
  fun w =>
    match m w with
    | (Return a, w') => k a w'
    | (Throw e, w') => (Throw e, w')
    end.

(** [try { m } catch (e) { h e }] *)
Definition try_catch {S A} (m : M S A) (h : jserror -> M S A) : M S A :=
  fun w =>
    match m w with
    | (Return a, w') => (Return a, w')
    | (Throw e, w') => h e w'
    end.

Declare Scope js_scope.
Delimit Scope js_scope with js.
Notation "x <- c1 ;; c2" := (bind c1 (fun x => c2))
  (at level 61, c1 at next level, right associativity) : js_scope.
Notation "c1 ;; c2" := (bind c1 (fun _ => c2))
  (at level 61, right associativity) : js_scope.
Local Open Scope js_scope.

(** An awaited call: the store answers, the call is recorded, a rejection
    is thrown. *)
Definition after {S} (w : world S) (s' : S) (c : call) : world S :=
  mkWorld s' (w_partyCache w) (w_provinceCache w) (w_areaCache w)
          (w_calls w ++ [c]).

Definition await {S A} (c : call) (f : S -> reply A * S) : M S A :=
  fun w =>
    let (r, s') := f (w_pb w) in
    match r with
    | Ok a => (Return a, after w s' c)
    | Fail e => (Throw e, after w s' c)
    end.

Section Client.
Context {S : Type} `{PocketBase S}.

Definition getFirstListItem (c : string) (f : filter) : M S obj :=
  await (CGetFirstListItem c f) (pb_getFirstListItem c f).

Definition getFullList (c : string) : M S (list obj) :=
  await (CGetFullList c) (pb_getFullList c).

Definition getList (c : string) (page perPage : Z) : M S (list obj) :=
  await (CGetList c page perPage) (pb_getList c page perPage).

Definition create (c : string) (payload : obj) : M S obj :=
  await (CCreate c payload) (pb_create c payload).

Definition update (c : string) (id : value) (payload : obj) : M S obj :=
  await (CUpdate c id payload) (pb_update c id payload).

Definition authUser (email password : string) : M S unit :=
  await (CAuthUser email password) (pb_authUser email password).

Definition authAdmin (email password : string) : M S unit :=
  await (CAuthAdmin email password) (pb_authAdmin email password).

End Client.

(** What [syncItem] returns. *)
Inductive verdict : Type := created | updated | skipped | failed.

(** The counters of a run. *)
Record Stats : Type := mkStats
  { st_created : nat; st_updated : nat; st_skipped : nat; st_failed : nat }.

Definition stats0 : Stats := mkStats 0 0 0 0.

(** [if (result === 'created') stats.created++; else if ... else stats.failed++] *)
Definition tally (st : Stats) (result : verdict) : Stats :=
  match result with
  | created => mkStats (S (st_created st)) (st_updated st) (st_skipped st) (st_failed st)
  | updated => mkStats (st_created st) (S (st_updated st)) (st_skipped st) (st_failed st)
  | skipped => mkStats (st_created st) (st_updated st) (S (st_skipped st)) (st_failed st)
  | failed => mkStats (st_created st) (st_updated st) (st_skipped st) (S (st_failed st))
  end.

(** [for (const item of items) { const result = await syncItem(pb, item); ... }],
    with the verdicts kept for inspection. *)
Fixpoint for_items {S} (syncItem : obj -> M S verdict)
    (count : Stats -> verdict -> Stats)
    (items : list obj) (acc : Stats * list verdict) : M S (Stats * list verdict) :=
  match items with
  | [] => ret acc
  | item :: rest =>
      result <- syncItem item ;;
      for_items syncItem count rest
        (count (fst acc) result, snd acc ++ [result])
  end.

(** How a process ends.  [main] never lets an exception escape: it prints
    the summary, or it logs the fatal error and then, in some scripts
    only, calls [process.exit(1)].  [Spinning] is a pagination loop that
    has not stopped within the fuel given. *)
Inductive ending : Type :=
| Done (stats : Stats) (results : list verdict)
| Fatal (message : string) (exit : option Z)
| Spinning.

(** The status the operating system sees: that of [process.exit], and 0
    when the process ends by itself. *)
Definition exit_status (e : ending) : option Z :=
  match e with
  | Done _ _ => Some 0
  | Fatal _ (Some code) => Some code
  | Fatal _ None => Some 0
  | Spinning => None
  end.





(** One page of the source: [data.<entity> || []] and
    [(data.pagination || {}).totalPages], a JSON number when reported. *)
Record page_data : Type := mkPage
  { pd_items : list obj; pd_totalPages : option Z }.

(** [x || dflt] on an optional setting. *)
Definition or_default (x : option string) (dflt : string) : string :=
  match x with
  | Some s => if String.eqb s EmptyString then dflt else s
  | None => dflt
  end.

(** [tp && page >= tp]: a missing or zero [totalPages] is falsy. *)
Definition reached_guarded (page : Z) (tp : option Z) : bool :=
  match tp with
  | Some n => negb (Z.eqb n 0) && Z.leb n page
  | None => false
  end.

(** [page >= tp]: [page >= undefined] is false. *)
Definition reached (page : Z) (tp : option Z) : bool :=
  match tp with
  | Some n => Z.leb n page
  | None => false
  end.

Section Shared.
Context {S : Type} `{PocketBase S}.

(** The block every differ starts with:
<<
    let existing = null;
    try { existing = await pb.collection(C).getFirstListItem(filter); }
    catch (err) { if (err.status !== 404) throw err; }
>> *)
Definition find_existing (c : string) (f : filter) : M S (option obj) :=
  try_catch
    (existing <- getFirstListItem c f ;; ret (Some existing))
    (fun err =>
       if strict_neq (err_status err) (VNum 404) then throw err else ret None).

(** [name="${v}"] *)
Definition by_name (v : value) : filter := mkFilter "name" true (to_string v).

(** The three relation caches.  Each script has its own copy of these
    functions, with the same text. *)
Definition set_partyCache (m : jsmap) : M S unit :=
  fun w => (Return tt, mkWorld (w_pb w) (Some m) (w_provinceCache w)
                               (w_areaCache w) (w_calls w)).

Definition set_provinceCache (m : jsmap) : M S unit :=
  fun w => (Return tt, mkWorld (w_pb w) (w_partyCache w) (Some m)
                               (w_areaCache w) (w_calls w)).

Definition set_areaCache (m : jsmap) : M S unit :=
  fun w => (Return tt, mkWorld (w_pb w) (w_partyCache w) (w_provinceCache w)
                               (Some m) (w_calls w)).

Definition read {A} (f : world S -> A) : M S A := fun w => (Return (f w), w).

(** [for (const record of records) cache.set(key(record), record.id)] *)
Definition fill (key : obj -> value) (records : list obj) (m : jsmap) : jsmap :=
  fold_left (fun m record => map_set m (key record) (get record "id")) records m.

(** [cache.get(k)] on a cache that has been initialised. *)
Definition cache_get (cache : option jsmap) (k : value) : value :=
  match cache with
  | Some m => map_get m k
  | None => VUndef
  end.

Definition getPartyId (parties : string) (partyName : value) : M S value :=
  cache <- read w_partyCache ;;
  match cache with
  | None =>
      set_partyCache [] ;;
      try_catch
        (records <- getFullList parties ;;
         set_partyCache (fill (fun record => get record "name") records []))
        (fun e => ret tt)
  | Some _ => ret tt
  end ;;
  cache <- read w_partyCache ;;
  ret (cache_get cache partyName).

Definition getProvinceId (provinceName : value) : M S value :=
  cache <- read w_provinceCache ;;
  match cache with
  | None =>
      set_provinceCache [] ;;
      try_catch
        (records <- getFullList "provinces" ;;
         set_provinceCache (fill (fun record => get record "name") records []))
        (fun e => ret tt)
  | Some _ => ret tt
  end ;;
  cache <- read w_provinceCache ;;
  ret (cache_get cache provinceName).

(** [`${a}_${b}`] *)
Definition area_key (a b : value) : value :=
  VStr (to_string a ++ "_" ++ to_string b)%string.

Definition getAreaId (provinceId areaNumber : value) : M S value :=
  cache <- read w_areaCache ;;
  match cache with
  | None =>
      set_areaCache [] ;;
      try_catch
        (records <- getFullList "areas" ;;
         set_areaCache
           (fill (fun record => area_key (get record "province") (get record "number"))
                 records []))
        (fun e => ret tt)
  | Some _ => ret tt
  end ;;
  cache <- read w_areaCache ;;
  ret (cache_get cache (area_key provinceId areaNumber)).

(** [pb.js]: [authenticate()].  The credentials are those [CONFIG] holds
    once the module is loaded, see [credentials] and [node]. *)
Definition authenticate (EMAIL PASSWORD : string) : M S unit :=
  valid <- read (fun w => pb_isValid (w_pb w)) ;;
  if valid then ret tt
  else
    try_catch
      (try_catch
         (authUser EMAIL PASSWORD)
         (fun userAuthError => authAdmin EMAIL PASSWORD) ;;
       ret tt)
      (fun error =>
         throw (Error ("Authentication Failed: " ++ err_message error)%string)).

(** The source API, one GET per page; [fetchPage] wraps a rejection. *)
Definition http_get {A} (page : option Z) (answer : reply A) : M S A :=
  await (CHttpGet page) (fun s => (answer, s)).

Definition fetchPage (source : Z -> reply page_data) (page : Z) : M S page_data :=
  try_catch
    (http_get (Some page) (source page))
    (fun error =>
       throw (Error ("Fetch Page " ++ string_of_Z page ++ " Failed: "
                     ++ err_message error)%string)).

(** [fetchData] / [fetchSourceData] of the scripts that read one list. *)
Definition fetchData {A} (source : reply A) : M S A :=
  try_catch
    (http_get None source)
    (fun error => throw (Error ("Fetch Failed: " ++ err_message error)%string)).

(** The loop of the paginated scripts:
<<
    let page = 1; let hasMore = true;
    while (hasMore) {
        const { items, pagination } = await fetchPage(page);
        if (items.length === 0) { hasMore = false; break; }
        for (const item of items) { ... }
        if (<last page>) { hasMore = false; } else { page++; }
    }
>>
    [last] is the test of the script; the result is [None] when the loop
    is still running after [fuel] pages. *)
Fixpoint while_hasMore (syncItem : obj -> M S verdict)
    (last : Z -> option Z -> bool) (source : Z -> reply page_data)
    (fuel : nat) (page : Z) (acc : Stats * list verdict)
  : M S (option (Stats * list verdict)) :=
  match fuel with
  | O => ret None
  | Datatypes.S fuel' =>
      p <- fetchPage source page ;;
      if Nat.eqb (List.length (pd_items p)) 0 then ret (Some acc)
      else
        acc' <- for_items syncItem tally (pd_items p) acc ;;
        if last page (pd_totalPages p) then ret (Some acc')
        else while_hasMore syncItem last source fuel' (page + 1) acc'
  end.

(** [main] of a paginated script; [exit] is what its [catch] passes to
    [process.exit], if it calls it. *)
Definition main_paginated (EMAIL PASSWORD : string)
    (syncItem : obj -> M S verdict) (last : Z -> option Z -> bool)
    (exit : option Z) (source : Z -> reply page_data) (fuel : nat)
  : M S ending :=
  try_catch
    (authenticate EMAIL PASSWORD ;;
     r <- while_hasMore syncItem last source fuel 1 (stats0, []) ;;
     match r with
     | Some (stats, results) => ret (Done stats results)
     | None => ret Spinning
     end)
    (fun error => ret (Fatal (err_message error) exit)).

(** [main] of a script that reads the whole list at once; [count] is its
    chain of [stats.x++]. *)
Definition main_list (EMAIL PASSWORD : string)
    (syncItem : obj -> M S verdict) (count : Stats -> verdict -> Stats)
    (exit : option Z) (source : reply (list obj))
  : M S ending :=
  try_catch
    (authenticate EMAIL PASSWORD ;;
     items <- fetchData source ;;
     r <- for_items syncItem count items (stats0, []) ;;
     ret (Done (fst r) (snd r)))
    (fun error => ret (Fatal (err_message error) exit)).

End Shared.

(** [k: item.k] in a payload literal. *)
Definition copy (item : obj) (k : string) : string * value := (k, get item k).

(** [existing.k !== payload.k] *)
Definition differs (existing payload : obj) (k : string) : bool :=
  strict_neq (get existing k) (get payload k).

(* ===================================================================== *)
(** * sync-partylist.js *)
(* ===================================================================== *)

Module Partylist.
Section Script.
Context {S : Type} `{PocketBase S}.

Definition COLLECTION : string := "partylist".

Definition build_payload (item : obj) (partyId : value) : obj :=
  [ copy item "name"; copy item "number"; copy item "title";
    copy item "firstName"; copy item "lastName";
    copy item "pmCandidateRank"; copy item "active";
    ("party", partyId) ].

Definition isChanged (existing payload : obj) : bool :=
  differs existing payload "number" ||
  differs existing payload "title" ||
  differs existing payload "firstName" ||
  differs existing payload "lastName" ||
  differs existing payload "pmCandidateRank" ||
  differs existing payload "active" ||
  differs existing payload "party".

Definition syncItem (item : obj) : M S verdict :=
  let partyName := opt_get (get item "party") "name" in
  partyId <- getPartyId "parties" partyName ;;
  let payload := build_payload item partyId in
  try_catch
    (existing <- find_existing COLLECTION (by_name (get item "name")) ;;
     match existing with
     | Some existing =>
         if isChanged existing payload then
           update COLLECTION (get existing "id") payload ;;
           ret updated
         else ret skipped
     | None =>
         create COLLECTION payload ;;
         ret created
     end)
    (fun error => ret failed).

Definition main (EMAIL PASSWORD : string) :=
  main_paginated EMAIL PASSWORD syncItem reached_guarded (Some 1).

End Script.

(** The properties [isChanged] compares. *)
Definition diffed : list string :=
  [ "number"; "title"; "firstName"; "lastName"; "pmCandidateRank"; "active";
    "party" ].

End Partylist.

(* ===================================================================== *)
(** * The parties script (unnamed part 000) *)
(* ===================================================================== *)

Module Parties.
Section Script.
Context {S : Type} `{PocketBase S}.

Definition COLLECTION : string := "parties".

Definition build_payload (item : obj) : obj :=
  [ copy item "name"; copy item "code"; copy item "abbreviation";
    copy item "color"; copy item "logoUrl"; copy item "totalCandidates" ].

Definition syncItem (item : obj) : M S verdict :=
  let payload := build_payload item in
  try_catch
    (existingId <-
       try_catch
         (existing <- getFirstListItem COLLECTION (by_name (get item "name")) ;;
          ret (get existing "id"))
         (fun err =>
            if strict_neq (err_status err) (VNum 404) then throw err
            else ret VNull) ;;
     if truthy existingId then
       update COLLECTION existingId payload ;;
       ret updated
     else
       create COLLECTION payload ;;
       ret created)
    (fun error => ret failed).

(** [stats = { created, updated, failed }] *)
Definition count (st : Stats) (result : verdict) : Stats :=
  match result with
  | created => tally st created
  | updated => tally st updated
  | _ => tally st failed
  end.

Definition main (EMAIL PASSWORD : string) :=
  main_list EMAIL PASSWORD syncItem count (Some 1).

End Script.
End Parties.

(* ===================================================================== *)
(** * The partylist-results script (unnamed part 001) *)
(* ===================================================================== *)

Module PartylistResults.
Section Script.
Context {S : Type} `{PocketBase S}.

(** [process.env.PB_COLLECTION_PARTIES] *)
Variable PB_COLLECTION_PARTIES : option string.

Definition COLLECTION : string := "partylistResults".

Definition build_payload (item : obj) (partyId : value) : obj :=
  [ copy item "totalVotes"; copy item "automaticSeats"; copy item "remainder";
    copy item "remainderSeats"; copy item "totalSeats"; copy item "percentage";
    ("party", partyId) ].

Definition isChanged (existing payload : obj) : bool :=
  differs existing payload "totalVotes" ||
  differs existing payload "automaticSeats" ||
  differs existing payload "remainder" ||
  differs existing payload "remainderSeats" ||
  differs existing payload "totalSeats" ||
  differs existing payload "percentage".

Definition syncItem (item : obj) : M S verdict :=
  let partyName := opt_get (get item "party") "name" in
  partyId <- getPartyId (or_default PB_COLLECTION_PARTIES "parties") partyName ;;
  let payload := build_payload item partyId in
  try_catch
    (existing <-
       try_catch
         (if truthy partyId then
            existing <- getFirstListItem COLLECTION
                          (mkFilter "party" true (to_string partyId)) ;;
            ret (Some existing)
          else ret None)
         (fun err =>
            if strict_neq (err_status err) (VNum 404) then throw err
            else ret None) ;;
     match existing with
     | Some existing =>
         if isChanged existing payload then
           update COLLECTION (get existing "id") payload ;;
           ret updated
         else ret skipped
     | None =>
         create COLLECTION payload ;;
         ret created
     end)
    (fun error => ret failed).

Definition main (EMAIL PASSWORD : string) :=
  main_list EMAIL PASSWORD syncItem tally (Some 1).

End Script.
End PartylistResults.

(* ===================================================================== *)
(** * The candidates script (unnamed part 002) *)
(* ===================================================================== *)

Module Candidates.
Section Script.
Context {S : Type} `{PocketBase S}.

Definition COLLECTION : string := "candidates".

Definition build_payload (item : obj) (partyId provinceId : value) : obj :=
  [ copy item "number"; copy item "name"; copy item "provinceCode";
    copy item "provinceName"; copy item "areaNumber"; copy item "totalVotes";
    copy item "rank"; copy item "percentage";
    ("party", partyId); ("province", provinceId) ].

Definition isChanged (existing payload : obj) : bool :=
  differs existing payload "totalVotes" ||
  differs existing payload "rank" ||
  differs existing payload "percentage" ||
  differs existing payload "province".

Definition syncItem (item : obj) : M S verdict :=
  let partyName := opt_get (get item "party") "name" in
  partyId <- getPartyId "parties" partyName ;;
  let provinceName := get item "provinceName" in
  provinceId <- getProvinceId provinceName ;;
  let payload := build_payload item partyId provinceId in
  try_catch
    (existing <- find_existing COLLECTION (by_name (get item "name")) ;;
     match existing with
     | Some existing =>
         if isChanged existing payload then
           update COLLECTION (get existing "id") payload ;;
           ret updated
         else ret skipped
     | None =>
         create COLLECTION payload ;;
         ret created
     end)
    (fun error => ret failed).

Definition main (EMAIL PASSWORD : string) :=
  main_paginated EMAIL PASSWORD syncItem reached (Some 1).

End Script.
End Candidates.

(* ===================================================================== *)
(** * The areas script (unnamed part 003) *)
(* ===================================================================== *)

Module Areas.
Section Script.
Context {S : Type} `{PocketBase S}.

Definition COLLECTION : string := "areas".

Definition build_payload (item : obj) (provinceId : value) : obj :=
  [ copy item "name"; copy item "number"; copy item "eligibleVoters";
    ("province", provinceId) ].

Definition isChanged (existing payload : obj) : bool :=
  differs existing payload "eligibleVoters" ||
  differs existing payload "province" ||
  differs existing payload "number".

Definition syncItem (item : obj) : M S verdict :=
  let provinceName := opt_get (get item "province") "name" in
  provinceId <- getProvinceId provinceName ;;
  let payload := build_payload item provinceId in
  try_catch
    (existing <- find_existing COLLECTION (by_name (get item "name")) ;;
     match existing with
     | Some existing =>
         if isChanged existing payload then
           update COLLECTION (get existing "id") payload ;;
           ret updated
         else ret skipped
     | None =>
         create COLLECTION payload ;;
         ret created
     end)
    (fun error => ret failed).

Definition main (EMAIL PASSWORD : string) :=
  main_paginated EMAIL PASSWORD syncItem reached (Some 1).

End Script.
End Areas.

(* ===================================================================== *)
(** * The candidate profile script (unnamed part 004) *)
(* ===================================================================== *)

Module CandidateProfile.
Section Script.
Context {S : Type} `{PocketBase S}.

Definition COLLECTION : string := "candidates".

Definition build_payload (item : obj) (areaNumber partyId provinceId areaId : value)
  : obj :=
  [ copy item "name";
    copy item "title"; copy item "firstName"; copy item "lastName";
    copy item "photoUrl"; copy item "active";
    copy item "number";
    ("provinceCode", opt_get (get item "province") "code");
    ("provinceName", opt_get (get item "province") "name");
    ("areaNumber", areaNumber);
    ("party", partyId); ("province", provinceId); ("area", areaId) ].

Definition isChanged (existing payload : obj) : bool :=
  differs existing payload "title" ||
  differs existing payload "firstName" ||
  differs existing payload "lastName" ||
  differs existing payload "photoUrl" ||
  differs existing payload "active" ||
  differs existing payload "party" ||
  differs existing payload "province" ||
  differs existing payload "area".

Definition syncItem (item : obj) : M S verdict :=
  let partyName := opt_get (get item "party") "name" in
  partyId <- getPartyId "parties" partyName ;;
  let provinceName := opt_get (get item "province") "name" in
  provinceId <- getProvinceId provinceName ;;
  let areaNumber := opt_get (get item "electionArea") "areaNumber" in
  areaId <- (if truthy provinceId && truthy areaNumber
             then getAreaId provinceId areaNumber
             else ret VNull) ;;
  let payload := build_payload item areaNumber partyId provinceId areaId in
  try_catch
    (existing <- find_existing COLLECTION (by_name (get item "name")) ;;
     match existing with
     | Some existing =>
         if isChanged existing payload then
           update COLLECTION (get existing "id") payload ;;
           ret updated
         else ret skipped
     | None =>
         create COLLECTION payload ;;
         ret created
     end)
    (fun error => ret failed).

Definition main (EMAIL PASSWORD : string) :=
  main_paginated EMAIL PASSWORD syncItem reached_guarded (Some 1).

End Script.

(** The properties [isChanged] compares, and those of the payload. *)
Definition diffed : list string :=
  [ "title"; "firstName"; "lastName"; "photoUrl"; "active"; "party";
    "province"; "area" ].

Definition allowed : list string :=
  [ "name"; "title"; "firstName"; "lastName"; "photoUrl"; "active"; "number";
    "provinceCode"; "provinceName"; "areaNumber"; "party"; "province"; "area" ].

End CandidateProfile.

(* ===================================================================== *)
(** * The candidate score script (unnamed part 005): update only *)
(* ===================================================================== *)

Module Score.
Section Script.
Context {S : Type} `{PocketBase S}.

Definition COLLECTION : string := "candidates".

Definition build_payload (item : obj) : obj :=
  [ copy item "name"; copy item "totalVotes"; copy item "rank";
    copy item "percentage" ].

Definition isChanged (existing payload : obj) : bool :=
  differs existing payload "totalVotes" ||
  differs existing payload "rank" ||
  differs existing payload "percentage".

Definition syncItem (item : obj) : M S verdict :=
  let payload := build_payload item in
  try_catch
    (existing <- find_existing COLLECTION (by_name (get item "name")) ;;
     match existing with
     | Some existing =>
         if isChanged existing payload then
           update COLLECTION (get existing "id") payload ;;
           ret updated
         else ret skipped
     | None => ret skipped
     end)
    (fun error => ret failed).

Definition main (EMAIL PASSWORD : string) :=
  main_paginated EMAIL PASSWORD syncItem reached (Some 1).

End Script.
End Score.

(* ===================================================================== *)
(** * The realtime national parties script (unnamed part 005) *)
(* ===================================================================== *)

Module NationalParties.
Section Script.
Context {S : Type} `{PocketBase S}.

Definition COLLECTION : string := "parties".

Definition build_payload (item : obj) (partyName : value) : obj :=
  [ ("name", partyName); copy item "totalVotes"; copy item "constituencySeats";
    copy item "partyListSeats"; copy item "totalSeats"; copy item "percentage" ].

Definition isChanged (existing payload : obj) : bool :=
  differs existing payload "totalVotes" ||
  differs existing payload "constituencySeats" ||
  differs existing payload "partyListSeats" ||
  differs existing payload "totalSeats" ||
  differs existing payload "percentage".

Definition syncItem (item : obj) : M S verdict :=
  let partyName := opt_get (get item "party") "name" in
  let payload := build_payload item partyName in
  try_catch
    (existing <- find_existing COLLECTION (by_name partyName) ;;
     match existing with
     | Some existing =>
         if isChanged existing payload then
           update COLLECTION (get existing "id") payload ;;
           ret updated
         else ret skipped
     | None =>
         create COLLECTION payload ;;
         ret created
     end)
    (fun error => ret failed).

(** The [catch] of this [main] has [process.exit(1)] commented out. *)
Definition main (EMAIL PASSWORD : string) :=
  main_list EMAIL PASSWORD syncItem tally None.

End Script.
End NationalParties.

(* ===================================================================== *)
(** * The realtime province statistics script (unnamed part 006):
      update only *)
(* ===================================================================== *)

Module ProvinceStats.
Section Script.
Context {S : Type} `{PocketBase S}.

Definition COLLECTION : string := "provinces".

Definition build_payload (item : obj) : obj :=
  let statistics := get item "statistics" in
  let coverage := get item "coverage" in
  [ ("goodVotes", opt_get statistics "goodVotes");
    ("totalVotes", opt_get statistics "totalVotes");
    ("invalidVotes", opt_get statistics "invalidVotes");
    ("noVotes", opt_get statistics "noVotes");
    ("eligibleVoters", opt_get statistics "eligibleVoters");
    ("voterTurnoutPercentage", opt_get statistics "voterTurnoutPercentage");
    ("stationsReported", opt_get coverage "stationsReported");
    ("totalStations", opt_get coverage "totalStations");
    ("percentage", opt_get coverage "percentage") ].

Definition isChanged (existing payload : obj) : bool :=
  differs existing payload "goodVotes" ||
  differs existing payload "totalVotes" ||
  differs existing payload "stationsReported" ||
  differs existing payload "percentage".

Definition syncItem (item : obj) : M S verdict :=
  let provinceName := get item "provinceName" in
  let payload := build_payload item in
  try_catch
    (existing <- find_existing COLLECTION (by_name provinceName) ;;
     match existing with
     | Some existing =>
         if isChanged existing payload then
           update COLLECTION (get existing "id") payload ;;
           ret updated
         else ret skipped
     | None => ret skipped
     end)
    (fun error => ret failed).

(** [stats = { updated, skipped, failed }] *)
Definition count (st : Stats) (result : verdict) : Stats :=
  match result with
  | updated => tally st updated
  | skipped => tally st skipped
  | _ => tally st failed
  end.

Definition main (EMAIL PASSWORD : string) :=
  main_list EMAIL PASSWORD syncItem count None.

End Script.
End ProvinceStats.

(* ===================================================================== *)
(** * sync-provinces.js: create or skip *)
(* ===================================================================== *)

Module Provinces.
Section Script.
Context {S : Type} `{PocketBase S}.

(** [process.env.PB_COLLECTION] *)
Variable PB_COLLECTION : option string.

Definition COLLECTION : string := or_default PB_COLLECTION "provinces".

Definition build_payload (item : obj) : obj :=
  [ copy item "name"; copy item "code"; copy item "region" ].

Definition syncItem (item : obj) : M S verdict :=
  let payload := build_payload item in
  try_catch
    (found <-
       try_catch
         (getFirstListItem COLLECTION (by_name (get item "name")) ;;
          ret (Some skipped))
         (fun err =>
            if strict_neq (err_status err) (VNum 404) then throw err
            else ret None) ;;
     match found with
     | Some result => ret result
     | None =>
         create COLLECTION payload ;;
         ret created
     end)
    (fun error => ret failed).

(** [stats = { created, skipped, failed }] *)
Definition count (st : Stats) (result : verdict) : Stats :=
  match result with
  | created => tally st created
  | skipped => tally st skipped
  | _ => tally st failed
  end.

Definition main (EMAIL PASSWORD : string) :=
  main_list EMAIL PASSWORD syncItem count (Some 1).

End Script.
End Provinces.

(* ===================================================================== *)
(** * realtime/sync-national-statistics.js *)
(* ===================================================================== *)

Module NationalStatistics.
Section Script.
Context {S : Type} `{PocketBase S}.

Definition COLLECTION : string := "national".

Definition build_payload (data : value) : obj :=
  let statistics := opt_get data "statistics" in
  let coverage := opt_get data "coverage" in
  [ ("goodVotes", opt_get statistics "goodVotes");
    ("totalVotes", opt_get statistics "totalVotes");
    ("invalidVotes", opt_get statistics "invalidVotes");
    ("noVotes", opt_get statistics "noVotes");
    ("eligibleVoters", opt_get statistics "eligibleVoters");
    ("voterTurnoutPercentage", opt_get statistics "voterTurnoutPercentage");
    ("stationsReported", opt_get coverage "stationsReported");
    ("totalStations", opt_get coverage "totalStations");
    ("percentage", opt_get coverage "percentage") ].

Definition isChanged (existing payload : obj) : bool :=
  differs existing payload "goodVotes" ||
  differs existing payload "stationsReported" ||
  differs existing payload "percentage".

Definition syncData (data : value) : M S verdict :=
  if negb (truthy data) || negb (truthy (opt_get data "statistics"))
     || negb (truthy (opt_get data "coverage"))
  then ret failed
  else
    let payload := build_payload data in
    try_catch
      (existing <-
         try_catch
           (list <- getList COLLECTION 1 1 ;;
            ret (hd_error list))
           (fun err => ret None) ;;
       match existing with
       | Some existing =>
           if isChanged existing payload then
             update COLLECTION (get existing "id") payload ;;
             ret updated
           else ret skipped
       | None =>
           create COLLECTION payload ;;
           ret created
       end)
      (fun error => ret failed).

Definition main (EMAIL PASSWORD : string) (source : reply value) : M S ending :=
  try_catch
    (authenticate EMAIL PASSWORD ;;
     data <- fetchData source ;;
     result <- syncData data ;;
     ret (Done (tally stats0 result) [result]))
    (fun error => ret (Fatal (err_message error) None)).

End Script.
End NationalStatistics.

(* ===================================================================== *)
(** * masterdata/sync-referendum.js *)
(* ===================================================================== *)

Module Referendum.
Section Script.
Context {S : Type} `{PocketBase S}.

Definition COLLECTION : string := "referendum".

(** [options.find(o => o.optionCode === code)] on an array; reading
    [optionCode] of a [null] element is a TypeError. *)
Fixpoint find_option (code : string) (options : list value) : outcome value :=
  match options with
  | [] => Return VUndef
  | o :: rest =>
      match o with
      | VUndef | VNull =>
          Throw (Error "Cannot read properties of null (reading 'optionCode')")
      | _ =>
          if strict_eq (opt_get o "optionCode") (VStr code) then Return o
          else find_option code rest
      end
  end.

(** [item.options.find(...)]: only an array has [find]. *)
Definition options_find (item : obj) (code : string) : M S value :=
  fun w =>
    match get item "options" with
    | VArr options => (find_option code options, w)
    | _ => (Throw (Error "item.options.find is not a function"), w)
    end.

(** [option ? option.k : 0] *)
Definition pick (option : value) (k : string) : value :=
  if truthy option then opt_get option k else VNum 0.


Definition build_payload (item : obj) (agreeOption disagreeOption : value) : obj :=
  [ ("number", get item "questionNumber");
    ("title", get item "questionText");
    ("agreeTotalVotes", pick agreeOption "totalVotes");
    ("agreePercentage", pick agreeOption "percentage");
    ("agreeRank", pick agreeOption "rank");
    ("disagreeTotalVotes", pick disagreeOption "totalVotes");
    ("disagreePercentage", pick disagreeOption "percentage");
    ("disagreeRank", pick disagreeOption "rank");
    copy item "goodVotes"; copy item "totalVotes";
    copy item "invalidVotes"; copy item "noVotes" ].

Definition isChanged (existing payload : obj) : bool :=
  differs existing payload "agreeTotalVotes" ||
  differs existing payload "agreePercentage" ||
  differs existing payload "agreeRank" ||
  differs existing payload "disagreeTotalVotes" ||
  differs existing payload "disagreePercentage" ||
  differs existing payload "disagreeRank" ||
  differs existing payload "totalVotes" ||
  differs existing payload "title".

Definition syncItem (item : obj) : M S verdict :=
  agreeOption <- options_find item "agree" ;;
  disagreeOption <- options_find item "disagree" ;;
  let payload := build_payload item agreeOption disagreeOption in
  try_catch
    (existing <- find_existing COLLECTION
                   (mkFilter "number" false (to_string (get item "questionNumber"))) ;;
     match existing with
     | Some existing =>
         if isChanged existing payload then
           update COLLECTION (get existing "id") payload ;;
           ret updated
         else ret skipped
     | None =>
         create COLLECTION payload ;;
         ret created
     end)
    (fun error => ret failed).

Definition main (EMAIL PASSWORD : string) :=
  main_list EMAIL PASSWORD syncItem tally None.

End Script.

(** The properties [isChanged] compares, and those of the payload. *)
Definition diffed : list string :=
  [ "agreeTotalVotes"; "agreePercentage"; "agreeRank"; "disagreeTotalVotes";
    "disagreePercentage"; "disagreeRank"; "totalVotes"; "title" ].

Definition allowed : list string :=
  [ "number"; "title"; "agreeTotalVotes"; "agreePercentage"; "agreeRank";
    "disagreeTotalVotes"; "disagreePercentage"; "disagreeRank"; "goodVotes";
    "totalVotes"; "invalidVotes"; "noVotes" ].

End Referendum.

(* ===================================================================== *)
(** * Two stores *)
(* ===================================================================== *)

(** A reliable document store that keeps what it is sent: records are JSON
    objects, [create] appends a record with a fresh id, [update] patches
    the record with that id, a lookup answers the first record whose field
    prints as the filter's text, or 404.  A payload travels as JSON, so the
    properties that are [undefined] do not reach the store. *)
Module MemStore.

Record store : Type := mkStore
  { colls : string -> list obj; next : nat; valid : bool }.

Definition empty : store := mkStore (fun _ => []) 0 false.

Definition id_of (n : nat) : value :=
  VStr ("r" ++ NilEmpty.string_of_uint (Nat.to_uint n))%string.

Definition not_found : jserror :=
  mkError (VNum 404) "The requested resource wasn't found.".

Definition matches (f : filter) (r : obj) : bool :=
  String.eqb (to_string (get r (flt_field f))) (flt_text f).

Definition put (c : string) (recs : list obj) (s : store) : store :=
  mkStore (fun c' => if String.eqb c' c then recs else colls s c')
          (next s) (valid s).

(** [JSON.stringify] of a payload. *)
Definition wire (payload : obj) : obj :=
  List.filter (fun kv => match snd kv with VUndef => false | _ => true end) payload.

Fixpoint set (o : obj) (k : string) (v : value) : obj :=
  match o with
  | [] => [(k, v)]
  | (k', v') :: o' =>
      if String.eqb k k' then (k', v) :: o' else (k', v') :: set o' k v
  end.

Definition patch (r payload : obj) : obj :=
  fold_left (fun r kv => set r (fst kv) (snd kv)) (wire payload) r.

Fixpoint patch_first (id : value) (payload : obj) (recs : list obj)
  : option (obj * list obj) :=
  match recs with
  | [] => None
  | r :: rest =>
      if strict_eq (get r "id") id
      then Some (patch r payload, patch r payload :: rest)
      else match patch_first id payload rest with
           | Some (r', rest') => Some (r', r :: rest')
           | None => None
           end
  end.

Definition getFirstListItem (c : string) (f : filter) (s : store)
  : reply obj * store :=
  match find (matches f) (colls s c) with
  | Some r => (Ok r, s)
  | None => (Fail not_found, s)
  end.

Definition getFullList (c : string) (s : store) : reply (list obj) * store :=
  (Ok (colls s c), s).

Definition getList (c : string) (page perPage : Z) (s : store)
  : reply (list obj) * store :=
  (Ok (firstn (Z.to_nat perPage)
         (skipn (Z.to_nat ((page - 1) * perPage)) (colls s c))), s).

Definition create (c : string) (payload : obj) (s : store) : reply obj * store :=
  let r := ("id", id_of (next s)) :: wire payload in
  (Ok r, mkStore (fun c' => if String.eqb c' c then colls s c ++ [r] else colls s c')
                 (Datatypes.S (next s)) (valid s)).

Definition update (c : string) (id : value) (payload : obj) (s : store)
  : reply obj * store :=
  match patch_first id payload (colls s c) with
  | Some (r', recs') => (Ok r', put c recs' s)
  | None => (Fail not_found, s)
  end.

Definition auth (email password : string) (s : store) : reply unit * store :=
  (Ok tt, mkStore (colls s) (next s) true).

#[global] Instance pocketbase : PocketBase store :=
  {| pb_isValid := valid;
     pb_authUser := auth;
     pb_authAdmin := auth;
     pb_getFirstListItem := getFirstListItem;
     pb_getFullList := getFullList;
     pb_getList := getList;
     pb_create := create;
     pb_update := update |}.




End MemStore.

(** A store that answers from a script, one entry per call, whatever the
    call: the test double for rejections. *)
Module Scripted.

Inductive canned : Type :=
| Accept (records : list obj)
| Reject (e : jserror).

Record store : Type := mkStore { session : bool; replies : list canned }.

Definition exhausted : jserror := mkError (VNum 0) "Something went wrong.".

Definition answer {A} (conv : list obj -> A) (s : store) : reply A * store :=
  match replies s with
  | [] => (Fail exhausted, s)
  | Accept recs :: rest => (Ok (conv recs), mkStore (session s) rest)
  | Reject e :: rest => (Fail e, mkStore (session s) rest)
  end.

Definition first (recs : list obj) : obj := hd [] recs.

Definition auth (s : store) : reply unit * store :=
  match replies s with
  | [] => (Fail exhausted, s)
  | Accept _ :: rest => (Ok tt, mkStore true rest)
  | Reject e :: rest => (Fail e, mkStore (session s) rest)
  end.

#[global] Instance pocketbase : PocketBase store :=
  {| pb_isValid := session;
     pb_authUser := fun _ _ => auth;
     pb_authAdmin := fun _ _ => auth;
     pb_getFirstListItem := fun _ _ => answer first;
     pb_getFullList := fun _ => answer (fun recs => recs);
     pb_getList := fun _ _ _ => answer (fun recs => recs);
     pb_create := fun _ _ => answer first;
     pb_update := fun _ _ _ => answer first |}.

End Scripted.

(* ===================================================================== *)
(** * Vocabulary of the statements *)
(* ===================================================================== *)

Section Vocabulary.
Context {S : Type} `{PocketBase S}.


(** In world [w] the store answers the lookup with [r], leaving [w']. *)
Definition lookup_answers (w : world S) (C : string) (f : filter)
    (r : reply obj) (w' : world S) : Prop :=
  exists s', pb_getFirstListItem C f (w_pb w) = (r, s')
             /\ w' = after w s' (CGetFirstListItem C f).

Definition create_answers (w : world S) (C : string) (payload : obj)
    (r : reply obj) (w' : world S) : Prop :=
  exists s', pb_create C payload (w_pb w) = (r, s')
             /\ w' = after w s' (CCreate C payload).


(** [err.status !== 404] is false: the expected "no such record". *)
Definition is_404 (e : jserror) : Prop :=
  strict_neq (err_status e) (VNum 404) = false.

(** The verdict of a write the store answered with [r]. *)
Definition written (v : verdict) (r : reply obj) : verdict :=
  match r with
  | Ok _ => v
  | Fail _ => failed
  end.

(** A piece of code that always returns, whatever the store does. *)
Definition never_throws {A B} (f : A -> M S B) : Prop :=
  forall a w, exists b w', f a w = (Return b, w').




Definition auth_succeeds (EMAIL PASSWORD : string) (w w' : world S) : Prop :=
  authenticate EMAIL PASSWORD w = (Return tt, w').









(** The pagination loop as C4 words it, for the driver with stop test
    [last]: a processed page whose number has reached the reported
    [totalPages] is the last one. *)
Definition stops_at_reported_total (syncItem : obj -> M S verdict)
    (last : Z -> option Z -> bool) : Prop :=
  forall source fuel page acc (w : world S) p w1 acc' w2 n,
    fetchPage source page w = (Return p, w1) ->
    pd_items p <> [] ->
    for_items syncItem tally (pd_items p) acc w1 = (Return acc', w2) ->
    pd_totalPages p = Some n -> n <= page ->
    while_hasMore syncItem last source (Datatypes.S fuel) page acc w
    = (Return (Some acc'), w2).

(** One turn of the loop of a driver whose stop test is [last], where
    [stop_at page totalPages] says when [last] holds: an empty page ends
    the loop at once, whatever it reports; a processed page ends it when
    [stop_at] holds; otherwise the loop goes on with the next page. *)
Definition pagination_contract (syncItem : obj -> M S verdict)
    (last : Z -> option Z -> bool) (stop_at : Z -> option Z -> Prop) : Prop :=
  forall source fuel page acc (w : world S) p,
    source page = Ok p ->
    let w1 := after w (w_pb w) (CHttpGet (Some page)) in
    (pd_items p = [] ->
       while_hasMore syncItem last source (Datatypes.S fuel) page acc w
       = (Return (Some acc), w1))
    /\ (pd_items p <> [] ->
        forall acc' w2,
          for_items syncItem tally (pd_items p) acc w1 = (Return acc', w2) ->
          (stop_at page (pd_totalPages p) ->
             while_hasMore syncItem last source (Datatypes.S fuel) page acc w
             = (Return (Some acc'), w2))
          /\ (~ stop_at page (pd_totalPages p) ->
                while_hasMore syncItem last source (Datatypes.S fuel) page acc w
                = while_hasMore syncItem last source fuel (page + 1) acc' w2)).




(** The party of the scenario: [{name:"X", code:"X1", totalCandidates:5}]. *)
Definition partyX : obj :=
  [("name", VStr "X"); ("code", VStr "X1"); ("totalCandidates", VNum 5)].



End Vocabulary.

(* ===================================================================== *)
(** * Statements on the reference store *)
(* ===================================================================== *)

(** No string occurs twice. *)
Fixpoint nodupb (l : list string) : bool :=
  match l with
  | [] => true
  | x :: r => negb (existsb (String.eqb x) r) && nodupb r
  end.






(** Two runs of a reconciler over the same items, each in a fresh
    process, the second on the store the first one left: the first
    completes, and the second skips every item, creates and updates
    nothing, and leaves the store as it found it. *)
Definition second_run_skips (syncItem : obj -> M MemStore.store verdict)
    (count : Stats -> verdict -> Stats) (s : MemStore.store)
    (items : list obj) : Prop :=
  exists st1 vs1 w1 st2 w2,
    for_items syncItem count items (stats0, []) (boot s)
      = (Return (st1, vs1), w1)
    /\ for_items syncItem count items (stats0, []) (boot (w_pb w1))
       = (Return (st2, repeat skipped (List.length items)), w2)
    /\ st_created st2 = 0%nat /\ st_updated st2 = 0%nat
    /\ w_pb w2 = w_pb w1.


Section PartylistOnStore.
Variable s0 : MemStore.store.







End PartylistOnStore.

(* ===================================================================== *)
(** * Further vocabulary *)
(* ===================================================================== *)




Section Vocabulary2.
Context {S : Type} `{PocketBase S}.


(** The calls a piece of code added to the trace satisfy [ok]. *)
Definition only_calls (w w' : world S) (ok : call -> bool) : Prop :=
  exists added, w_calls w' = w_calls w ++ added /\ forallb ok added = true.

(** What [syncData] needs: [data], [data.statistics] and [data.coverage]
    are all truthy. *)
Definition well_formed_snapshot (data : value) : bool :=
  truthy data && truthy (opt_get data "statistics")
  && truthy (opt_get data "coverage").

End Vocabulary2.

Section Vocabulary3.
Context {S : Type} `{PocketBase S}.



End Vocabulary3.

(** ** Counting *)




(** [Array.isArray(v)] *)
Definition is_array (v : value) : bool :=
  match v with
  | VArr _ => true
  | _ => false
  end.

(** The source that answers page [k] with an empty page and every other
    page as [source] does. *)
Definition ends_at (source : Z -> reply page_data) (k : Z) : Z -> reply page_data :=
  fun page => if Z.eqb page k then Ok (mkPage [] None) else source page.

(** The item has a record in the provinces collection: the lookup of
    [Provinces.syncItem] finds one. *)
Definition Provinces_settled (env : option string) (s : MemStore.store)
    (item : obj) : Prop :=
  find (MemStore.matches (by_name (get item "name")))
       (MemStore.colls s (Provinces.COLLECTION env)) <> None.

Section Vocabulary4.
Context {S : Type} `{PocketBase S}.



End Vocabulary4.





(** The item carries a name, as a string. *)
Definition has_name (item : obj) : bool :=
  match get item "name" with
  | VStr _ => true
  | _ => false
  end.

(* ===================================================================== *)
(** * Basic facts *)
(* ===================================================================== *)




Section Steps.
Context {S : Type} `{PocketBase S}.

Lemma await_reply {A} (c : call) (f : S -> reply A * S) (w : world S) r s' :
  f (w_pb w) = (r, s') ->
  await c f w = (match r with Ok a => Return a | Fail e => Throw e end,
                 after w s' c).
Proof. intros E. unfold await. rewrite E. destruct r; reflexivity. Qed.

(** ** [authenticate] *)

Lemma authenticate_valid (E P : string) (w : world S) :
  pb_isValid (w_pb w) = true -> authenticate E P w = (Return tt, w).
Proof.
  intros V. unfold authenticate, bind, read. rewrite V. reflexivity.
Qed.

Lemma authenticate_user (E P : string) (w : world S) a su :
  pb_isValid (w_pb w) = false ->
  pb_authUser E P (w_pb w) = (Ok a, su) ->
  authenticate E P w = (Return tt, after w su (CAuthUser E P)).
Proof.
  intros V U. unfold authenticate, bind, read, try_catch, authUser. rewrite V.
  rewrite (await_reply _ _ _ _ _ U). reflexivity.
Qed.

Lemma authenticate_admin (E P : string) (w : world S) eu su ra sa :
  pb_isValid (w_pb w) = false ->
  pb_authUser E P (w_pb w) = (Fail eu, su) ->
  pb_authAdmin E P su = (ra, sa) ->
  authenticate E P w =
    (match ra with
     | Ok _ => Return tt
     | Fail ea => Throw (Error ("Authentication Failed: " ++ err_message ea)%string)
     end,
     after (after w su (CAuthUser E P)) sa (CAuthAdmin E P)).
Proof.
  intros V U A. unfold authenticate, bind, read, try_catch, authUser, authAdmin.
  rewrite V, (await_reply _ _ _ _ _ U).
  rewrite (await_reply (CAuthAdmin E P) (pb_authAdmin E P)
             (after w su (CAuthUser E P)) ra sa A).
  destruct ra; reflexivity.
Qed.

End Steps.

(** C6. [authenticate()]: with a valid session it returns at once, the
    process and the store untouched and no call made; otherwise it tries
    the user login, and on any rejection of it the admin login with the
    same credentials; it throws exactly when both are rejected, and the
    error then carries the message of the admin rejection. *)
Theorem authenticate_contract {S : Type} `{PocketBase S}
    (EMAIL PASSWORD : string) (w : world S) :
  (pb_isValid (w_pb w) = true ->
     authenticate EMAIL PASSWORD w = (Return tt, w))
  /\
  (pb_isValid (w_pb w) = false ->
     forall ru su, pb_authUser EMAIL PASSWORD (w_pb w) = (ru, su) ->
     let w1 := after w su (CAuthUser EMAIL PASSWORD) in
     match ru with
     | Ok _ => authenticate EMAIL PASSWORD w = (Return tt, w1)
     | Fail _ =>
         forall ra sa, pb_authAdmin EMAIL PASSWORD su = (ra, sa) ->
         let w2 := after w1 sa (CAuthAdmin EMAIL PASSWORD) in
         match ra with
         | Ok _ => authenticate EMAIL PASSWORD w = (Return tt, w2)
         | Fail ea =>
             authenticate EMAIL PASSWORD w =
               (Throw (Error ("Authentication Failed: " ++ err_message ea)%string),
                w2)
         end
     end)
  /\
  ((exists e w', authenticate EMAIL PASSWORD w = (Throw e, w')) <->
   (pb_isValid (w_pb w) = false /\
    exists eu su ea sa,
      pb_authUser EMAIL PASSWORD (w_pb w) = (Fail eu, su) /\
      pb_authAdmin EMAIL PASSWORD su = (Fail ea, sa))).
Proof.
  split; [apply authenticate_valid|]. split.
  - intros V ru su U w1. destruct ru as [a|eu].
    + now apply authenticate_user with a.
    + intros ra sa A w2.
      pose proof (authenticate_admin EMAIL PASSWORD w eu su ra sa V U A) as E.
      destruct ra; exact E.
  - split.
    + intros (e & w' & T).
      destruct (pb_isValid (w_pb w)) eqn:V.
      { rewrite (authenticate_valid _ _ _ V) in T. discriminate. }
      split; [reflexivity|].
      destruct (pb_authUser EMAIL PASSWORD (w_pb w)) as [ru su] eqn:U.
      destruct ru as [a|eu].
      { rewrite (authenticate_user _ _ _ a su V U) in T. discriminate. }
      destruct (pb_authAdmin EMAIL PASSWORD su) as [ra sa] eqn:A.
      rewrite (authenticate_admin _ _ _ eu su ra sa V U A) in T.
      destruct ra as [a|ea]; [discriminate|].
      now exists eu, su, ea, sa.
    + intros (V & eu & su & ea & sa & U & A).
      rewrite (authenticate_admin _ _ _ eu su _ sa V U A). eauto.
Qed.

(** On a store that rejects both logins, [authenticate] makes the two
    calls and throws with the second message. *)
Lemma authenticate_contract_witness :
  let denied1 := mkError (VNum 400) "Failed to authenticate." in
  let denied2 := mkError (VNum 401) "Invalid admin credentials." in
  let w := boot (Scripted.mkStore false [Scripted.Reject denied1; Scripted.Reject denied2]) in
  authenticate "bot@example.org" "secret" w =
    (Throw (Error "Authentication Failed: Invalid admin credentials."),
     mkWorld (Scripted.mkStore false []) None None None
       [CAuthUser "bot@example.org" "secret"; CAuthAdmin "bot@example.org" "secret"])
  /\ authenticate "bot@example.org" "secret" (boot (Scripted.mkStore true []))
     = (Return tt, boot (Scripted.mkStore true [])).
Proof.
  intros denied1 denied2 w. split.
  - destruct (authenticate_contract "bot@example.org" "secret" w) as (_ & F & _).
    exact (F eq_refl (Fail denied1) (Scripted.mkStore false [Scripted.Reject denied2])
             eq_refl (Fail denied2) (Scripted.mkStore false []) eq_refl).
  - destruct (authenticate_contract "bot@example.org" "secret"
                (boot (Scripted.mkStore true []))) as (V & _).
    exact (V eq_refl).
Defined.

(** ** The relation caches *)






Section Caches.
Context {S : Type} `{PocketBase S}.







End Caches.



(** ** The [try] block of [syncItem] *)

Section Tail.
Context {S : Type} `{PocketBase S}.












End Tail.

(** ** Every script's [syncItem] ends in that block *)

Section Shapes.
Context {S : Type} `{PocketBase S}.









End Shapes.

(** ** The loop over the items *)

Section Batch.
Context {S : Type} `{PocketBase S}.

Lemma for_items_returns (syncItem : obj -> M S verdict) count items :
  (forall item, In item items ->
     forall w, exists v w', syncItem item w = (Return v, w')) ->
  forall acc w, exists st vs w',
    for_items syncItem count items acc w = (Return (st, vs), w')
    /\ List.length vs = (List.length (snd acc) + List.length items)%nat.
Proof.
  induction items as [|item rest IH]; intros T acc w.
  - destruct acc as [st vs]. exists st, vs, w. split; [reflexivity|]. simpl. lia.
  - destruct (T item (or_introl eq_refl) w) as (v & w1 & E).
    destruct (IH (fun i Hi => T i (or_intror Hi))
                 (count (fst acc) v, snd acc ++ [v]) w1) as (st & vs & w' & F & L).
    exists st, vs, w'. split.
    + simpl. unfold bind. rewrite E. exact F.
    + rewrite L. simpl. rewrite length_app. simpl. lia.
Qed.

Lemma for_items_cons (syncItem : obj -> M S verdict) count item rest acc w v w1 :
  syncItem item w = (Return v, w1) ->
  for_items syncItem count (item :: rest) acc w
  = for_items syncItem count rest (count (fst acc) v, snd acc ++ [v]) w1.
Proof. intros E. simpl. unfold bind. now rewrite E. Qed.







End Batch.



(** ** Items without a stored record *)

Section Absent.
Context {S : Type} `{PocketBase S}.




Lemma Parties_absent item (w : world S) e w1 rc w2 :
  lookup_answers w Parties.COLLECTION (by_name (get item "name")) (Fail e) w1 ->
  is_404 e ->
  create_answers w1 Parties.COLLECTION (Parties.build_payload item) rc w2 ->
  Parties.syncItem item w = (Return (written created rc), w2).
Proof.
  intros (s1 & L & ->) N (s2 & K & ->).
  unfold Parties.syncItem, try_catch, bind, getFirstListItem, create.
  rewrite (await_reply _ _ _ _ _ L). red in N. rewrite N. simpl.
  rewrite (await_reply _ _ _ _ _ K). now destruct rc.
Qed.

End Absent.



(** ** Party-list results *)

Section Results.
Context {S : Type} `{PocketBase S}.
Variable PB_COLLECTION_PARTIES : option string.


End Results.



(** ** The drivers *)

Section Drivers.
Context {S : Type} `{PocketBase S}.

Lemma bind_return {A B} (m : M S A) (k : A -> M S B) w a w' :
  m w = (Return a, w') -> bind m k w = k a w'.
Proof. unfold bind. now intros ->. Qed.

Lemma bind_throw {A B} (m : M S A) (k : A -> M S B) w e w' :
  m w = (Throw e, w') -> bind m k w = (Throw e, w').
Proof. unfold bind. now intros ->. Qed.

Lemma fetchData_ok {A} (a : A) (w : world S) :
  fetchData (Ok a) w = (Return a, after w (w_pb w) (CHttpGet None)).
Proof. reflexivity. Qed.


Lemma fetchPage_ok source page p (w : world S) :
  source page = Ok p ->
  fetchPage source page w = (Return p, after w (w_pb w) (CHttpGet (Some page))).
Proof. intros E. unfold fetchPage, try_catch, http_get, await. now rewrite E. Qed.

Lemma fetchPage_fail source page e (w : world S) :
  source page = Fail e ->
  fetchPage source page w
  = (Throw (Error ("Fetch Page " ++ string_of_Z page ++ " Failed: "
                   ++ err_message e)%string),
     after w (w_pb w) (CHttpGet (Some page))).
Proof. intros E. unfold fetchPage, try_catch, http_get, await. now rewrite E. Qed.

Lemma main_list_run E P syncItem count exit items (w w0 : world S) st vs w' :
  auth_succeeds E P w w0 ->
  for_items syncItem count items (stats0, [])
    (after w0 (w_pb w0) (CHttpGet None)) = (Return (st, vs), w') ->
  main_list E P syncItem count exit (Ok items) w = (Return (Done st vs), w').
Proof.
  intros A F. unfold main_list, try_catch.
  rewrite (bind_return _ _ _ _ _ A).
  rewrite (bind_return _ _ _ _ _ (fetchData_ok items w0)).
  now rewrite (bind_return _ _ _ _ _ F).
Qed.

End Drivers.

(** C9 as stated does not hold: in the scenario the payload of the create
    call has six properties, not five. *)
Lemma party_scenario_counts_six_fields :
  ~ (exists w',
       Parties.main "bot@example.org" "secret" (Ok [partyX]) (boot MemStore.empty)
       = (Return (Done (mkStats 1 0 0 0) [created]), w')
       /\ exists payload,
            In (CCreate "parties" payload) (w_calls w')
            /\ List.length payload = 5%nat).
Proof.
  intros (w' & R & payload & I & L).
  assert (E : w' = snd (Parties.main "bot@example.org" "secret" (Ok [partyX])
                          (boot MemStore.empty))) by (now rewrite R).
  rewrite E in I. vm_compute in I.
  destruct I as [I|[I|[I|[I|[]]]]]; try discriminate.
  inversion I; subst payload. vm_compute in L. discriminate.
Qed.

(** C9, amended. The source returns the one party
    [{name:"X", code:"X1", totalCandidates:5}] and the store has no record
    named "X" (the lookup answers 404) and accepts the create: the verdict
    is [created], the create call carries the six allow-listed properties
    [name], [code], [abbreviation], [color], [logoUrl], [totalCandidates]
    (the three the item lacks are [undefined]), and the run ends with
    created = 1, updated = 0, failed = 0. *)
Theorem party_scenario {S : Type} `{PocketBase S}
    (EMAIL PASSWORD : string) (w w0 : world S) :
  auth_succeeds EMAIL PASSWORD w w0 ->
  let payload :=
    [("name", VStr "X"); ("code", VStr "X1"); ("abbreviation", VUndef);
     ("color", VUndef); ("logoUrl", VUndef); ("totalCandidates", VNum 5)] in
  let lookup := CGetFirstListItem "parties" (by_name (VStr "X")) in
  forall e w1,
    lookup_answers (after w0 (w_pb w0) (CHttpGet None)) "parties"
      (by_name (VStr "X")) (Fail e) w1 ->
    is_404 e ->
  forall r w2,
    create_answers w1 "parties" payload (Ok r) w2 ->
    Parties.syncItem partyX (after w0 (w_pb w0) (CHttpGet None))
      = (Return created, w2)
    /\ Parties.main EMAIL PASSWORD (Ok [partyX]) w
       = (Return (Done (mkStats 1 0 0 0) [created]), w2)
    /\ w_calls w2 = w_calls w0 ++ [CHttpGet None; lookup; CCreate "parties" payload].
Proof.
  intros A payload lookup e w1 L N r w2 K.
  assert (R : Parties.syncItem partyX (after w0 (w_pb w0) (CHttpGet None))
              = (Return created, w2)).
  { exact (Parties_absent partyX _ _ _ _ _ L N K). }
  split; [exact R|]. split.
  - apply (main_list_run _ _ _ _ _ _ _ _ _ _ _ A).
    simpl. now rewrite (bind_return _ _ _ _ _ R).
  - destruct L as (s1 & _ & ->), K as (s2 & _ & ->). simpl.
    now rewrite <- !app_assoc.
Qed.

(** The scenario on the empty reference store. *)
Lemma party_scenario_witness :
  exists w2,
    Parties.main "bot@example.org" "secret" (Ok [partyX]) (boot MemStore.empty)
    = (Return (Done (mkStats 1 0 0 0) [created]), w2)
    /\ MemStore.colls (w_pb w2) "parties"
       = [[("id", VStr "r0"); ("name", VStr "X"); ("code", VStr "X1");
           ("totalCandidates", VNum 5)]].
Proof.
  pose (w := boot MemStore.empty).
  pose (w0 := after w (MemStore.mkStore (fun _ => []) 0 true)
                (CAuthUser "bot@example.org" "secret")).
  pose (w1 := after (after w0 (w_pb w0) (CHttpGet None)) (w_pb w0)
                (CGetFirstListItem "parties" (by_name (VStr "X")))).
  assert (A : auth_succeeds "bot@example.org" "secret" w w0) by reflexivity.
  edestruct (party_scenario "bot@example.org" "secret" w w0 A
               MemStore.not_found w1) as (_ & R & _).
  - eexists. split; reflexivity.
  - reflexivity.
  - eexists. split; reflexivity.
  - eexists. split; [exact R|]. reflexivity.
Defined.

(** ** The pagination loop *)

Section Pagination.
Context {S : Type} `{PocketBase S}.

Lemma reached_spec page tp :
  reached page tp = true <-> exists n, tp = Some n /\ n <= page.
Proof.
  unfold reached. destruct tp as [n|].
  - rewrite Z.leb_le. split; [eauto|]. now intros (m & [= ->] & L).
  - split; [discriminate|]. now intros (m & [=] & _).
Qed.

Lemma reached_guarded_spec page tp :
  reached_guarded page tp = true <-> exists n, tp = Some n /\ n <> 0 /\ n <= page.
Proof.
  unfold reached_guarded. destruct tp as [n|].
  - rewrite andb_true_iff, negb_true_iff, Z.eqb_neq, Z.leb_le.
    split; [intros []; eauto|]. now intros (m & [= ->] & L).
  - split; [discriminate|]. now intros (m & [=] & _).
Qed.

Lemma length_zero_nil {A} (l : list A) : Nat.eqb (List.length l) 0 = true <-> l = [].
Proof. destruct l; simpl; split; intros; try reflexivity; discriminate. Qed.

Lemma while_hasMore_turn (syncItem : obj -> M S verdict) last stop_at :
  (forall page tp, last page tp = true <-> stop_at page tp) ->
  pagination_contract syncItem last stop_at.
Proof.
  intros L source fuel page acc w p E w1. split.
  - intros Z. simpl. rewrite (bind_return _ _ _ _ _ (fetchPage_ok _ _ _ w E)).
    apply length_zero_nil in Z. now rewrite Z.
  - intros NZ acc' w2 F. simpl.
    rewrite (bind_return _ _ _ _ _ (fetchPage_ok _ _ _ w E)).
    destruct (Nat.eqb (List.length (pd_items p)) 0) eqn:Z.
    { apply length_zero_nil in Z. contradiction. }
    fold w1. rewrite (bind_return _ _ _ _ _ F). split.
    + intros St. apply L in St. now rewrite St.
    + intros St. destruct (last page (pd_totalPages p)) eqn:T; [|reflexivity].
      apply L in T. contradiction.
Qed.

End Pagination.

(** C4 as stated fails for the drivers that guard the test with
    [pagination.totalPages &&] (party list, candidate profiles): a page
    that reports [totalPages = 0] is not the last one. *)
Lemma partylist_loop_ignores_zero_total :
  ~ stops_at_reported_total (S:=MemStore.store) Partylist.syncItem reached_guarded.
Proof.
  intros C.
  pose (a := [("name", VStr "A")] : obj).
  pose (b := [("name", VStr "B")] : obj).
  pose (source := fun page : Z =>
                    if Z.eqb page 1 then Ok (mkPage [a] (Some 0))
                    else if Z.eqb page 2 then Ok (mkPage [b] (Some 0))
                    else Ok (mkPage [] (Some 0))).
  pose (w := boot MemStore.empty).
  pose (first := for_items Partylist.syncItem tally [a] (stats0, [])
                   (after w (w_pb w) (CHttpGet (Some 1)))).
  specialize (C source 2%nat 1 (stats0, []) w (mkPage [a] (Some 0))
                (after w (w_pb w) (CHttpGet (Some 1)))
                (mkStats 1 0 0 0, [created]) (snd first) 0).
  assert (R : fst (while_hasMore Partylist.syncItem reached_guarded source 3 1
                     (stats0, []) w)
              = Return (Some (mkStats 2 0 0 0, [created; created])))
    by (vm_compute; reflexivity).
  rewrite C in R.
  - discriminate R.
  - reflexivity.
  - discriminate.
  - reflexivity.
  - reflexivity.
  - lia.
Qed.

(** C4, amended. Every paginated driver starts with page 1.  A fetched
    page without items ends the loop at once, whatever [totalPages] it
    reports.  Otherwise the page is processed, and is the last one when
    its number has reached the reported [totalPages]; the party list and
    candidate profile drivers take a reported [totalPages] of 0 as not
    reported.  In all other cases (also when [totalPages] is missing) the
    loop goes on with the next page number. *)
Theorem pagination_loop {S : Type} `{PocketBase S}
    (syncItem : obj -> M S verdict) :
  pagination_contract syncItem reached
    (fun page tp => exists n, tp = Some n /\ n <= page)
  /\ pagination_contract syncItem reached_guarded
       (fun page tp => exists n, tp = Some n /\ n <> 0 /\ n <= page)
  /\ stops_at_reported_total syncItem reached
  /\ (forall EMAIL PASSWORD last exit source fuel (w w0 : world S) p,
        auth_succeeds EMAIL PASSWORD w w0 ->
        source 1 = Ok p -> pd_items p = [] ->
        main_paginated EMAIL PASSWORD syncItem last exit source
          (Datatypes.S fuel) w
        = (Return (Done stats0 []), after w0 (w_pb w0) (CHttpGet (Some 1))))
  /\ (Partylist.main (S:=S)
        = fun E P => main_paginated E P Partylist.syncItem reached_guarded (Some 1))
  /\ (CandidateProfile.main (S:=S)
        = fun E P => main_paginated E P CandidateProfile.syncItem reached_guarded (Some 1))
  /\ (Candidates.main (S:=S)
        = fun E P => main_paginated E P Candidates.syncItem reached (Some 1))
  /\ (Areas.main (S:=S)
        = fun E P => main_paginated E P Areas.syncItem reached (Some 1))
  /\ (Score.main (S:=S)
        = fun E P => main_paginated E P Score.syncItem reached (Some 1)).
Proof.
  repeat apply conj; try reflexivity.
  - apply while_hasMore_turn, reached_spec.
  - apply while_hasMore_turn, reached_guarded_spec.
  - intros source fuel page acc w p w1 acc' w2 n F NZ I T L.
    unfold fetchPage, try_catch, http_get, await in F.
    destruct (source page) as [p'|e] eqn:E; [|discriminate].
    injection F as -> <-.
    destruct (while_hasMore_turn syncItem reached _ reached_spec
                source fuel page acc w p E) as (_ & G).
    destruct (G NZ acc' w2 I) as (St & _). apply St. eauto.
  - intros E P last exit source fuel w w0 p A Sp Z.
    unfold main_paginated, try_catch. rewrite (bind_return _ _ _ _ _ A).
    destruct (while_hasMore_turn syncItem last (fun a b => last a b = true)
                (fun _ _ => conj (fun x => x) (fun x => x))
                source fuel 1 (stats0, []) w0 p Sp) as (G & _).
    now rewrite (bind_return _ _ _ _ _ (G Z)).
Qed.

(** The score driver on a source of two pages that reports
    [totalPages = 2]: an empty first page would end the run; here page 1
    is processed and the loop goes on, page 2 is processed and is the
    last. *)
Lemma pagination_loop_witness :
  let a : obj := [("name", VStr "A")] in
  let source := fun page : Z =>
                  if Z.eqb page 1 then Ok (mkPage [a] (Some 2))
                  else Ok (mkPage [] (Some 2)) in
  let w := boot MemStore.empty in
  while_hasMore Score.syncItem reached source 1 2 (stats0, []) w
  = (Return (Some (stats0, [])), after w (w_pb w) (CHttpGet (Some 2)))
  /\ exists w2,
       while_hasMore Score.syncItem reached source 2 1 (stats0, []) w
       = while_hasMore Score.syncItem reached source 1 2
           (mkStats 0 0 1 0, [skipped]) w2.
Proof.
  intros a source w.
  destruct (pagination_loop (S:=MemStore.store) Score.syncItem) as (C & _).
  split.
  - destruct (C source 0%nat 2 (stats0, []) w (mkPage [] (Some 2)) eq_refl)
      as (E & _).
    exact (E eq_refl).
  - destruct (C source 1%nat 1 (stats0, []) w (mkPage [a] (Some 2)) eq_refl)
      as (_ & G).
    eexists.
    refine (proj2 (G _ (mkStats 0 0 1 0, [skipped]) _ eq_refl) _).
    + discriminate.
    + intros (n & [= <-] & L). lia.
Defined.

(** ** Exit status *)

Section Exit.
Context {S : Type} `{PocketBase S}.





Lemma try_returns {A} (m : M S A) (a : A) (w : world S) :
  exists v w', try_catch m (fun _ => ret a) w = (Return v, w').
Proof. unfold try_catch. destruct (m w) as [[v|e] w']; unfold ret; eauto. Qed.


Lemma Score_returns : never_throws Score.syncItem.
Proof. intros item w. apply try_returns. Qed.












End Exit.




(* ===================================================================== *)
(** * The reference store *)
(* ===================================================================== *)

Section Mem.
Import MemStore.



Lemma get_notin (p : obj) k : ~ In k (map fst p) -> get p k = VUndef.
Proof.
  induction p as [|[k0 v0] p IH]; simpl; intros N; [reflexivity|].
  destruct (String.eqb k k0) eqn:E.
  - apply String.eqb_eq in E. subst. now elim N; left.
  - apply IH. intros I. apply N. now right.
Qed.

Lemma get_wire (p : obj) k : NoDup (map fst p) -> get (wire p) k = get p k.
Proof.
  induction p as [|[k0 v0] p IH]; simpl; intros N; [reflexivity|].
  inversion N as [|? ? N0 N1]; subst.
  destruct v0; simpl; rewrite ?(IH N1); try reflexivity.
  destruct (String.eqb k k0) eqn:E; [|reflexivity].
  apply String.eqb_eq in E. subst. now apply get_notin.
Qed.





Lemma find_snoc_old {A} (f : A -> bool) l x r :
  find f l = Some r -> find f (l ++ [x]) = Some r.
Proof.
  induction l as [|a l IH]; simpl; [discriminate|].
  destruct (f a); [trivial | exact IH].
Qed.

Lemma find_snoc_new {A} (f : A -> bool) l x :
  find f l = None -> f x = true -> find f (l ++ [x]) = Some x.
Proof.
  intros N T. induction l as [|a l IH]; simpl in *; [now rewrite T|].
  destruct (f a); [discriminate | now apply IH].
Qed.



End Mem.

(** ** Updates on the reference store *)

Section MemTail.
Import MemStore.

Lemma nodupb_sound l : nodupb l = true -> NoDup l.
Proof.
  induction l as [|x r IH]; simpl; intros E; [constructor|].
  apply andb_prop in E. destruct E as [N R]. constructor; [|now apply IH].
  intros I. apply negb_true_iff in N.
  assert (existsb (String.eqb x) r = true) as X; [|congruence].
  apply existsb_exists. exists x. split; [exact I | apply String.eqb_refl].
Qed.








End MemTail.








(** ** Two runs of the party-list reconciler *)

Local Abbreviation client_create := (@create MemStore.store MemStore.pocketbase).

Section Idempotence.
Import MemStore.
Variable s0 : store.











Lemma created_get i (p : obj) k :
  nodupb (map fst p) = true -> String.eqb k "id" = false ->
  get (("id", i) :: wire p) k = get p k.
Proof.
  intros N D. cbn [get]. rewrite D. apply get_wire, nodupb_sound, N.
Qed.





End Idempotence.




(* ===================================================================== *)
(** * Further properties of the scripts *)
(* ===================================================================== *)

Section TailCases.
Context {S : Type} `{PocketBase S}.


Lemma w_pb_after (w : world S) s c : w_pb (after w s c) = s.
Proof. reflexivity. Qed.

Lemma only_calls_refl (w : world S) ok : only_calls w w ok.
Proof. exists []. split; [now rewrite app_nil_r | reflexivity]. Qed.



End TailCases.

(** ** realtime/sync-national-statistics.js *)

Section NationalStatisticsFacts.
Context {S : Type} `{PocketBase S}.

Lemma syncData_malformed data (w : world S) :
  well_formed_snapshot data = false ->
  NationalStatistics.syncData data w = (Return failed, w).
Proof.
  unfold well_formed_snapshot, NationalStatistics.syncData. intros W.
  destruct (truthy data), (truthy (opt_get data "statistics")),
    (truthy (opt_get data "coverage")); try discriminate; reflexivity.
Qed.


End NationalStatisticsFacts.

(** X1. [syncData] on a snapshot that is missing, or lacks [statistics] or
    [coverage]: the verdict is [failed] and nothing is asked of the store;
    the run still prints its result and ends with status 0. *)
Theorem syncData_rejects_malformed_snapshot {S : Type} `{PocketBase S}
    (EMAIL PASSWORD : string) (data : value) (w w0 : world S) :
  well_formed_snapshot data = false ->
  NationalStatistics.syncData data w = (Return failed, w)
  /\ (auth_succeeds EMAIL PASSWORD w w0 ->
      NationalStatistics.main EMAIL PASSWORD (Ok data) w
      = (Return (Done (mkStats 0 0 0 1) [failed]),
         after w0 (w_pb w0) (CHttpGet None))).
Proof.
  intros W. split; [now apply syncData_malformed|].
  intros A. unfold NationalStatistics.main, try_catch.
  rewrite (bind_return _ _ _ _ _ A).
  rewrite (bind_return _ _ _ _ _ (fetchData_ok data w0)).
  now rewrite (bind_return _ _ _ _ _ (syncData_malformed data _ W)).
Qed.

(** A snapshot without [coverage], on the empty reference store. *)
Lemma syncData_rejects_malformed_snapshot_witness :
  let data := VObj [("statistics", VObj [("goodVotes", VNum 10)])] in
  NationalStatistics.syncData data (boot MemStore.empty)
  = (Return failed, boot MemStore.empty).
Proof.
  intros data.
  exact (proj1 (syncData_rejects_malformed_snapshot "bot@example.org" "secret"
                  data (boot MemStore.empty) (boot MemStore.empty) eq_refl)).
Defined.



(** ** sync-provinces.js, the parties script, the update-only scripts *)

Section WriteDiscipline.
Context {S : Type} `{PocketBase S}.

Lemma Provinces_cases env item (w : world S) :
  Provinces.syncItem env item w =
  let C := Provinces.COLLECTION env in
  let f := by_name (get item "name") in
  let payload := Provinces.build_payload item in
  let (rl, s1) := pb_getFirstListItem C f (w_pb w) in
  let w1 := after w s1 (CGetFirstListItem C f) in
  match rl with
  | Ok _ => (Return skipped, w1)
  | Fail e =>
      if strict_neq (err_status e) (VNum 404) then (Return failed, w1)
      else
        let (rc, s2) := pb_create C payload s1 in
        (Return (written created rc), after w1 s2 (CCreate C payload))
  end.
Proof.
  unfold Provinces.syncItem, try_catch, bind, getFirstListItem, create, await,
    ret, throw. cbv zeta.
  destruct (pb_getFirstListItem _ _ (w_pb w)) as [[r|e] s1]; [reflexivity|].
  destruct (strict_neq (err_status e) (VNum 404)); [reflexivity|].
  rewrite ?w_pb_after. destruct (pb_create _ _ s1) as [[r|e'] s2]; reflexivity.
Qed.





End WriteDiscipline.








(** ** The summary *)

Section Summary.
Context {S : Type} `{PocketBase S}.










End Summary.



(** ** The party cache over a run *)

Section CacheOnce.
Context {S : Type} `{PocketBase S}.




End CacheOnce.


(** ** A malformed referendum item *)

Section Malformed.
Context {S : Type} `{PocketBase S}.

Lemma for_items_app (syncItem : obj -> M S verdict) count before rest :
  forall acc (w : world S) acc1 w1,
    for_items syncItem count before acc w = (Return acc1, w1) ->
    for_items syncItem count (before ++ rest) acc w
    = for_items syncItem count rest acc1 w1.
Proof.
  induction before as [|item before IH]; intros acc w acc1 w1; simpl.
  - now intros [= -> ->].
  - unfold bind. destruct (syncItem item w) as [[v|e] w2]; [|discriminate].
    apply IH.
Qed.

Lemma Referendum_throws item (w : world S) :
  is_array (get item "options") = false ->
  exists e, Referendum.syncItem item w = (Throw e, w).
Proof.
  intros A. unfold Referendum.syncItem, bind, Referendum.options_find.
  destruct (get item "options"); try discriminate; eauto.
Qed.

End Malformed.

(** X9. An item of the referendum source whose [options] is not an array
    makes [syncItem] throw before its [try] block: the loop stops there,
    the items after it are not reconciled, the writes made for the items
    before it stay, and [main] logs a fatal error and ends with status 0
    without printing a summary. *)
Theorem referendum_malformed_item_aborts {S : Type} `{PocketBase S}
    (EMAIL PASSWORD : string) (before rest : list obj) (bad : obj)
    (w w0 : world S) acc1 w1 :
  is_array (get bad "options") = false ->
  auth_succeeds EMAIL PASSWORD w w0 ->
  for_items Referendum.syncItem tally before (stats0, [])
    (after w0 (w_pb w0) (CHttpGet None)) = (Return acc1, w1) ->
  exists message,
    Referendum.main EMAIL PASSWORD (Ok (before ++ bad :: rest)) w
    = (Return (Fatal message None), w1)
    /\ exit_status (Fatal message None) = Some 0.
Proof.
  intros A Au F.
  destruct (Referendum_throws bad w1 A) as (e & T).
  exists (err_message e). split; [|reflexivity].
  unfold Referendum.main, main_list, try_catch.
  rewrite (bind_return _ _ _ _ _ Au).
  rewrite (bind_return _ _ _ _ _ (fetchData_ok _ w0)).
  rewrite (bind_throw _ _ _ e w1); [reflexivity|].
  rewrite (for_items_app _ _ _ _ _ _ _ _ F). simpl.
  now rewrite (bind_throw _ _ _ _ _ T).
Qed.

(** Three questions, the second without options, on the empty reference
    store: the first is created, the third is never looked up. *)
Lemma referendum_malformed_item_aborts_witness :
  let q (n : Z) : obj :=
    [("questionNumber", VNum n); ("questionText", VStr "Q"); ("options", VArr [])] in
  let bad : obj := [("questionNumber", VNum 2); ("questionText", VStr "Q")] in
  exists message w1,
    Referendum.main "bot@example.org" "secret" (Ok ([q 1] ++ bad :: [q 3]))
      (boot MemStore.empty)
    = (Return (Fatal message None), w1)
    /\ List.length (MemStore.colls (w_pb w1) "referendum") = 1%nat.
Proof.
  intros q bad.
  pose (w := boot MemStore.empty).
  pose (w0 := snd (authenticate "bot@example.org" "secret" w)).
  pose (run := for_items Referendum.syncItem tally [q 1] (stats0, [])
                 (after w0 (w_pb w0) (CHttpGet None))).
  assert (Au : auth_succeeds "bot@example.org" "secret" w w0) by reflexivity.
  assert (F : run = (Return (mkStats 1 0 0 0, [created]), snd run)) by reflexivity.
  destruct (referendum_malformed_item_aborts "bot@example.org" "secret"
              [q 1] [q 3] bad w w0 (mkStats 1 0 0 0, [created]) (snd run)
              eq_refl Au F) as (message & R & _).
  exists message, (snd run). split; [exact R | reflexivity].
Defined.

(** ** Termination of the pagination loop *)

Section LoopEnds.
Context {S : Type} `{PocketBase S}.

Lemma while_hasMore_fetch_fails (syncItem : obj -> M S verdict) last source fuel
    page acc (w : world S) e :
  source page = Fail e ->
  while_hasMore syncItem last source (Datatypes.S fuel) page acc w
  = (Throw (Error ("Fetch Page " ++ string_of_Z page ++ " Failed: "
                   ++ err_message e)%string),
     after w (w_pb w) (CHttpGet (Some page))).
Proof.
  intros E. simpl. now rewrite (bind_throw _ _ _ _ _ (fetchPage_fail _ _ _ w E)).
Qed.

Lemma while_hasMore_bounded (syncItem : obj -> M S verdict) last source n :
  never_throws syncItem ->
  (forall page, exists p, source page = Ok p /\ pd_totalPages p = Some n) ->
  (forall page, last page (Some n) = true <-> n <= page) ->
  forall fuel page acc (w : world S),
    (0 < fuel)%nat -> n - page < Z.of_nat fuel ->
    exists r w',
      while_hasMore syncItem last source fuel page acc w = (Return (Some r), w').
Proof.
  intros T Src L. induction fuel as [|fuel IH]; intros page acc w P B.
  - lia.
  - destruct (Src page) as (p & E & Tp). simpl.
    rewrite (bind_return _ _ _ _ _ (fetchPage_ok _ _ _ w E)).
    destruct (Nat.eqb _ 0); [unfold ret; eauto|].
    destruct (for_items_returns syncItem tally (pd_items p)
                (fun i _ => T i) acc (after w (w_pb w) (CHttpGet (Some page))))
      as (st & vs & w2 & F & _).
    rewrite (bind_return _ _ _ _ _ F). rewrite Tp.
    destruct (last page (Some n)) eqn:La; [unfold ret; eauto|].
    assert (~ n <= page) by (rewrite <- L; congruence). apply IH; lia.
Qed.

Lemma while_hasMore_spins (syncItem : obj -> M S verdict) last source :
  never_throws syncItem ->
  (forall page, exists p, source page = Ok p /\ pd_items p <> []
                          /\ last page (pd_totalPages p) = false) ->
  forall fuel page acc (w : world S),
    exists w', while_hasMore syncItem last source fuel page acc w
               = (Return None, w').
Proof.
  intros T Src. induction fuel as [|fuel IH]; intros page acc w.
  - simpl. unfold ret. eauto.
  - destruct (Src page) as (p & E & NZ & La). simpl.
    rewrite (bind_return _ _ _ _ _ (fetchPage_ok _ _ _ w E)).
    destruct (Nat.eqb _ 0) eqn:Z; [apply length_zero_nil in Z; contradiction|].
    destruct (for_items_returns syncItem tally (pd_items p)
                (fun i _ => T i) acc (after w (w_pb w) (CHttpGet (Some page))))
      as (st & vs & w2 & F & _).
    rewrite (bind_return _ _ _ _ _ F), La. apply IH.
Qed.

End LoopEnds.

(** X10. A paginated run ends when the source reports its number of pages:
    if every page reports the same [totalPages = n >= 1], a run of any of
    the paginated drivers ends with its summary after at most [n] turns of
    the loop. *)
Theorem pagination_ends_within_total {S : Type} `{PocketBase S}
    (EMAIL PASSWORD : string) (syncItem : obj -> M S verdict)
    (exit : option Z) (source : Z -> reply page_data) (n : Z) (fuel : nat)
    (w w0 : world S) :
  never_throws syncItem ->
  auth_succeeds EMAIL PASSWORD w w0 ->
  1 <= n ->
  (forall page, exists p, source page = Ok p /\ pd_totalPages p = Some n) ->
  (Z.to_nat n <= fuel)%nat ->
  (exists st vs w',
     main_paginated EMAIL PASSWORD syncItem reached exit source fuel w
     = (Return (Done st vs), w'))
  /\ (exists st vs w',
        main_paginated EMAIL PASSWORD syncItem reached_guarded exit source fuel w
        = (Return (Done st vs), w')).
Proof.
  intros T A N Src F. split.
  - destruct (while_hasMore_bounded syncItem reached source n T Src) with
      (fuel := fuel) (page := 1) (acc := (stats0, @nil verdict)) (w := w0)
      as ([st vs] & w' & R); try lia.
    { intros page. unfold reached. apply Z.leb_le. }
    exists st, vs, w'. unfold main_paginated, try_catch.
    rewrite (bind_return _ _ _ _ _ A). now rewrite (bind_return _ _ _ _ _ R).
  - destruct (while_hasMore_bounded syncItem reached_guarded source n T Src) with
      (fuel := fuel) (page := 1) (acc := (stats0, @nil verdict)) (w := w0)
      as ([st vs] & w' & R); try lia.
    { intros page. rewrite reached_guarded_spec. split.
      - now intros (m & [= <-] & _ & L).
      - intros L. exists n. repeat split; [lia | exact L]. }
    exists st, vs, w'. unfold main_paginated, try_catch.
    rewrite (bind_return _ _ _ _ _ A). now rewrite (bind_return _ _ _ _ _ R).
Qed.

(** Two pages of scores, both reporting [totalPages = 2]: two turns are
    enough. *)
Lemma pagination_ends_within_total_witness :
  let a : obj := [("name", VStr "A")] in
  let source := fun page : Z => Ok (mkPage [a] (Some 2)) in
  exists st vs w',
    Score.main "bot@example.org" "secret" source 2 (boot MemStore.empty)
    = (Return (Done st vs), w').
Proof.
  intros a source.
  refine (proj1 (pagination_ends_within_total "bot@example.org" "secret"
                   Score.syncItem (Some 1) source 2 2 (boot MemStore.empty)
                   (snd (authenticate "bot@example.org" "secret" (boot MemStore.empty)))
                   Score_returns eq_refl _ _ _)).
  - lia.
  - intros page. eexists. split; reflexivity.
  - simpl. lia.
Defined.

(** X11. A paginated run does not end by itself when the source never
    reports its number of pages: if every page has items and none reports
    [totalPages], the loop is still running after any number of turns, in
    every paginated driver; in the drivers that test
    [pagination.totalPages &&], the same holds when every page reports
    [totalPages = 0]. *)
Theorem pagination_never_ends_without_total {S : Type} `{PocketBase S}
    (EMAIL PASSWORD : string) (syncItem : obj -> M S verdict)
    (exit : option Z) (source : Z -> reply page_data) (w w0 : world S) :
  never_throws syncItem ->
  auth_succeeds EMAIL PASSWORD w w0 ->
  ((forall page, exists p, source page = Ok p /\ pd_items p <> []
                           /\ pd_totalPages p = None) ->
   forall fuel,
     (exists w', main_paginated EMAIL PASSWORD syncItem reached exit source fuel w
                 = (Return Spinning, w'))
     /\ (exists w', main_paginated EMAIL PASSWORD syncItem reached_guarded exit
                      source fuel w
                    = (Return Spinning, w')))
  /\ ((forall page, exists p, source page = Ok p /\ pd_items p <> []
                              /\ pd_totalPages p = Some 0) ->
      forall fuel,
        exists w', main_paginated EMAIL PASSWORD syncItem reached_guarded exit
                     source fuel w
                   = (Return Spinning, w')).
Proof.
  intros T A. split.
  - intros Src fuel. split.
    + destruct (while_hasMore_spins syncItem reached source T) with
        (fuel := fuel) (page := 1) (acc := (stats0, @nil verdict)) (w := w0)
        as (w' & R).
      { intros page. destruct (Src page) as (p & E & NZ & Tp).
        exists p. rewrite Tp. auto. }
      exists w'. unfold main_paginated, try_catch.
      rewrite (bind_return _ _ _ _ _ A). now rewrite (bind_return _ _ _ _ _ R).
    + destruct (while_hasMore_spins syncItem reached_guarded source T) with
        (fuel := fuel) (page := 1) (acc := (stats0, @nil verdict)) (w := w0)
        as (w' & R).
      { intros page. destruct (Src page) as (p & E & NZ & Tp).
        exists p. rewrite Tp. auto. }
      exists w'. unfold main_paginated, try_catch.
      rewrite (bind_return _ _ _ _ _ A). now rewrite (bind_return _ _ _ _ _ R).
  - intros Src fuel.
    destruct (while_hasMore_spins syncItem reached_guarded source T) with
      (fuel := fuel) (page := 1) (acc := (stats0, @nil verdict)) (w := w0)
      as (w' & R).
    { intros page. destruct (Src page) as (p & E & NZ & Tp).
      exists p. rewrite Tp. auto. }
    exists w'. unfold main_paginated, try_catch.
    rewrite (bind_return _ _ _ _ _ A). now rewrite (bind_return _ _ _ _ _ R).
Qed.

(** A source that answers every page with the same score and no
    pagination: still running after a hundred turns. *)
Lemma pagination_never_ends_without_total_witness :
  let a : obj := [("name", VStr "A")] in
  let source := fun page : Z => Ok (mkPage [a] None) in
  exists w',
    Score.main "bot@example.org" "secret" source 100 (boot MemStore.empty)
    = (Return Spinning, w').
Proof.
  intros a source.
  assert (A : auth_succeeds "bot@example.org" "secret" (boot MemStore.empty)
                (snd (authenticate "bot@example.org" "secret" (boot MemStore.empty))))
    by reflexivity.
  destruct (pagination_never_ends_without_total "bot@example.org" "secret"
              Score.syncItem (Some 1) source (boot MemStore.empty) _
              Score_returns A) as (N & _).
  exact (proj1 (N (fun page => ex_intro _ (mkPage [a] None)
                                 (conj eq_refl
                                    (conj (fun e : [a] = [] => @nil_cons _ a [] (eq_sym e))
                                          eq_refl)))
                  100%nat)).
Defined.

Section FetchFails.
Context {S : Type} `{PocketBase S}.

Lemma while_hasMore_fail_as_empty (syncItem : obj -> M S verdict) last source k e :
  source k = Fail e ->
  (forall page, 1 <= page < k ->
     exists p, source page = Ok p /\ pd_items p <> []
               /\ last page (pd_totalPages p) = false) ->
  forall fuel page acc (w : world S) r w1,
    1 <= page <= k ->
    while_hasMore syncItem last (ends_at source k) fuel page acc w
    = (Return (Some r), w1) ->
    while_hasMore syncItem last source fuel page acc w
    = (Throw (Error ("Fetch Page " ++ string_of_Z k ++ " Failed: "
                     ++ err_message e)%string), w1).
Proof.
  intros F Src. induction fuel as [|fuel IH]; intros page acc w r w1 Le R.
  - discriminate R.
  - destruct (Z.eq_dec page k) as [->|Ne].
    + assert (E : ends_at source k k = Ok (mkPage [] None))
        by (unfold ends_at; now rewrite Z.eqb_refl).
      cbn [while_hasMore] in R.
      rewrite (bind_return _ _ _ _ _ (fetchPage_ok _ _ _ w E)) in R.
      cbn in R. injection R as _ <-.
      now apply while_hasMore_fetch_fails.
    + destruct (Src page) as (p & E & NZ & L); [lia|].
      assert (E' : ends_at source k page = Ok p).
      { unfold ends_at. destruct (Z.eqb_spec page k); [contradiction | exact E]. }
      cbn [while_hasMore] in *.
      rewrite (bind_return _ _ _ _ _ (fetchPage_ok _ _ _ w E')) in R.
      rewrite (bind_return _ _ _ _ _ (fetchPage_ok _ _ _ w E)).
      destruct (Nat.eqb (List.length (pd_items p)) 0) eqn:Z.
      { apply length_zero_nil in Z. contradiction. }
      unfold bind in *.
      destruct (for_items syncItem tally (pd_items p) acc
                  (after w (w_pb w) (CHttpGet (Some page)))) as [[acc'|err] w2].
      * rewrite L in *. apply (IH _ _ _ r); [lia | exact R].
      * discriminate R.
Qed.

End FetchFails.

(** X12. A fetch that fails on page [k], after pages [1 .. k-1] were
    processed, ends the run with the message of [fetchPage] and without a
    summary, and leaves the process and the store exactly as a run would
    in which page [k] had come back empty: the writes of the earlier pages
    are kept. *)
Theorem fetch_failure_keeps_earlier_writes {S : Type} `{PocketBase S}
    (EMAIL PASSWORD : string) (syncItem : obj -> M S verdict)
    (last : Z -> option Z -> bool) (exit : option Z)
    (source : Z -> reply page_data) (k : Z) (e : jserror) (fuel : nat)
    (w w1 : world S) (stats : Stats) (results : list verdict) :
  1 <= k ->
  source k = Fail e ->
  (forall page, 1 <= page < k ->
     exists p, source page = Ok p /\ pd_items p <> []
               /\ last page (pd_totalPages p) = false) ->
  main_paginated EMAIL PASSWORD syncItem last exit (ends_at source k) fuel w
  = (Return (Done stats results), w1) ->
  main_paginated EMAIL PASSWORD syncItem last exit source fuel w
  = (Return (Fatal ("Fetch Page " ++ string_of_Z k ++ " Failed: "
                    ++ err_message e) exit), w1).
Proof.
  intros K F Src R. unfold main_paginated, try_catch, bind in *.
  destruct (authenticate EMAIL PASSWORD w) as [[a|err] w0]; [|discriminate R].
  destruct (while_hasMore syncItem last (ends_at source k) fuel 1 (stats0, []) w0)
    as [[[[st vs]|]|err] w2] eqn:L; try discriminate R.
  injection R as _ _ <-.
  now rewrite (while_hasMore_fail_as_empty syncItem last source k e F Src
                 fuel 1 _ w0 _ w2 (conj (Z.le_refl 1) K) L).
Qed.

(** The first page of scores creates nothing or something; the second
    page is refused by the source. *)
Lemma fetch_failure_keeps_earlier_writes_witness :
  let a : obj := [("name", VStr "A")] in
  let down := Error "Request failed with status code 502" in
  let source := fun page : Z =>
    if Z.eqb page 1 then Ok (mkPage [a] (Some 3)) else Fail down in
  exists w1,
    Score.main "bot@example.org" "secret" source 5 (boot MemStore.empty)
    = (Return (Fatal "Fetch Page 2 Failed: Request failed with status code 502"
                 (Some 1)), w1).
Proof.
  intros a down source.
  eexists.
  refine (fetch_failure_keeps_earlier_writes "bot@example.org" "secret"
            Score.syncItem reached (Some 1) source 2 down 5 (boot MemStore.empty)
            _ _ _ _ eq_refl _ _).
  - lia.
  - intros page Lt. assert (C : page = 1) by lia. subst page.
    eexists. repeat split. discriminate.
  - vm_compute. reflexivity.
Defined.

Section ProvincesTwice.
Import MemStore.
Variable env : option string.

Lemma Provinces_step item (w : world store) :
  exists v w',
    Provinces.syncItem env item w = (Return v, w')
    /\ Provinces_settled env (w_pb w') item
    /\ (forall j, Provinces_settled env (w_pb w) j ->
                  Provinces_settled env (w_pb w') j).
Proof.
  rewrite Provinces_cases. cbv zeta. cbn [pb_getFirstListItem pocketbase].
  unfold getFirstListItem.
  destruct (find (matches (by_name (get item "name")))
              (colls (w_pb w) (Provinces.COLLECTION env))) as [r|] eqn:F.
  - eexists _, _. split; [reflexivity|]. rewrite w_pb_after. split; [|trivial].
    unfold Provinces_settled. now rewrite F.
  - cbn [err_status not_found strict_neq strict_eq negb pb_create pocketbase].
    eexists _, _. split; [reflexivity|]. rewrite !w_pb_after.
    unfold Provinces_settled. cbn [create snd colls]. rewrite String.eqb_refl.
    split.
    + rewrite (find_snoc_new _ _ _ F); [discriminate|].
      unfold matches, by_name. cbn [flt_field flt_text].
      rewrite (created_get _ (Provinces.build_payload item) "name");
        [apply String.eqb_refl | reflexivity | reflexivity].
    + intros j Sj.
      destruct (find (matches (by_name (get j "name")))
                  (colls (w_pb w) (Provinces.COLLECTION env))) as [rj|] eqn:Fj;
        [|now elim Sj].
      now rewrite (find_snoc_old _ _ _ _ Fj).
Qed.

Lemma Provinces_step_settled item (w : world store) :
  Provinces_settled env (w_pb w) item ->
  exists w', Provinces.syncItem env item w = (Return skipped, w')
             /\ w_pb w' = w_pb w.
Proof.
  intros St. rewrite Provinces_cases. cbv zeta. cbn [pb_getFirstListItem pocketbase].
  unfold getFirstListItem. unfold Provinces_settled in St.
  destruct (find (matches (by_name (get item "name")))
              (colls (w_pb w) (Provinces.COLLECTION env))) as [r|]; [|now elim St].
  eexists. split; [reflexivity | apply w_pb_after].
Qed.

Lemma Provinces_first_run items :
  forall acc (w : world store),
  exists acc' w',
    for_items (Provinces.syncItem env) Provinces.count items acc w
    = (Return acc', w')
    /\ (forall j, In j items -> Provinces_settled env (w_pb w') j)
    /\ (forall j, Provinces_settled env (w_pb w) j ->
                  Provinces_settled env (w_pb w') j).
Proof.
  induction items as [|item rest IH]; intros acc w.
  - exists acc, w. split; [reflexivity|]. split; [intros j [] | trivial].
  - destruct (Provinces_step item w) as (v & w1 & R & S1 & P1).
    destruct (IH (Provinces.count (fst acc) v, snd acc ++ [v]) w1)
      as (acc' & w' & R' & S' & P').
    exists acc', w'. split; [|split].
    + now rewrite (for_items_cons _ _ _ _ _ _ _ _ R).
    + intros j [<-|Hj]; [apply P', S1 | now apply S'].
    + intros j Sj. apply P', P1, Sj.
Qed.

Lemma Provinces_second_run items :
  forall acc (w : world store),
  (forall j, In j items -> Provinces_settled env (w_pb w) j) ->
  exists st' w',
    for_items (Provinces.syncItem env) Provinces.count items acc w
    = (Return (st', snd acc ++ repeat skipped (List.length items)), w')
    /\ st_created st' = st_created (fst acc)
    /\ st_updated st' = st_updated (fst acc)
    /\ w_pb w' = w_pb w.
Proof.
  induction items as [|item rest IH]; intros acc w St.
  - exists (fst acc), w. simpl. rewrite app_nil_r. now destruct acc.
  - destruct (Provinces_step_settled item w (St item (or_introl eq_refl)))
      as (w1 & R & Pb).
    destruct (IH (Provinces.count (fst acc) skipped, snd acc ++ [skipped]) w1)
      as (st' & w' & R' & Cr & Up & Pb').
    { intros j Hj. rewrite Pb. apply St. now right. }
    exists st', w'. split; [|split; [exact Cr | split; [exact Up | congruence]]].
    rewrite (for_items_cons _ _ _ _ _ _ _ _ R), R'. simpl.
    now rewrite <- app_assoc.
Qed.

End ProvincesTwice.

(** X13. The provinces script is idempotent on the reference store,
    whatever the store holds and whatever the named items are, repeated
    names included: a first run over the items completes, and a second
    run over the same items skips every one of them, creates and updates
    nothing, and leaves the store as it found it. *)
Theorem provinces_second_run_skips (env : option string) (s : MemStore.store)
    (items : list obj) :
  forallb has_name items = true ->
  second_run_skips (Provinces.syncItem env) Provinces.count s items.
Proof.
  intros _.
  destruct (Provinces_first_run env items (stats0, []) (boot s))
    as ([st1 vs1] & w1 & R1 & S1 & _).
  destruct (Provinces_second_run env items (stats0, []) (boot (w_pb w1)) S1)
    as (st2 & w2 & R2 & Cr & Up & Pb).
  exists st1, vs1, w1, st2, w2. repeat split; assumption.
Qed.

(** Two provinces, one of them listed twice, synchronised twice from an
    empty store. *)
Lemma provinces_second_run_skips_witness :
  let province (name code : string) : obj :=
    [("name", VStr name); ("code", VStr code); ("region", VStr "Central")] in
  second_run_skips (Provinces.syncItem None) Provinces.count MemStore.empty
    [province "Bangkok" "10"; province "Nonthaburi" "12"; province "Bangkok" "10"].
Proof.
  intros province. apply provinces_second_run_skips. reflexivity.
Defined.




